(** * Explicit finite-difference Black-Scholes pricer: model and properties

    A shallow embedding of [src/code.cpp] (class [FiniteDifferencePricer]).

    - [double] is IEEE-754 binary64: Rocq's primitive [float], whose
      operations are specified by [FloatAxioms] over [SpecFloat]. Every
      expression is evaluated operation by operation, in the order the C++
      grammar gives it, each result rounded to binary64. Equality of doubles
      in the statements is identity of the stored values.
    - [int] is a mathematical integer ([Z]); the two places where the program
      can leave the 32-bit range ([N + 1] and the conversion of a [double] to
      [int]) are checked and reported as faults.
    - [std::vector<double>] is a [list float]; [operator[]] is bounds-checked
      in the model and an access outside the vector is the fault
      [OutOfBounds] (undefined behaviour in C++).
    - The object is a record threaded through its member functions;
      [std::cin] is the list of tokens still to be read.
    - [std::exp] is a parameter: IEEE-754 does not fix its result.
    - Memory is unbounded: an allocation fails only for a negative size. *)

From Stdlib Require Import ZArith Lia Floats Uint63.
From stdpp Require Import base list.

Set Warnings "-inexact-float".
Local Open Scope Z_scope.

(** ** Outcomes of a computation *)

Inductive fault : Set :=
| OutOfBounds      (* vector access outside [0, size) *)
| IntOverflow      (* signed overflow of an int expression *)
| FloatToInt       (* static_cast<int> of a value that int cannot hold *)
| BadAlloc         (* vector of negative size requested *)
| Uninitialized    (* an int read before anything was stored in it *)
| InputFailure.    (* a token that does not parse as the requested type *)

Inductive outcome (A : Type) : Type :=
| Ok (a : A)
| Fault (f : fault)
| Diverges.

Arguments Ok {A} a.
Arguments Fault {A} f.
Arguments Diverges {A}.

#[global] Instance outcome_ret : MRet outcome := fun A a => Ok a.

#[global] Instance outcome_bind : MBind outcome := fun A B k c =>
  match c with
  | Ok a => k a
  | Fault f => Fault f
  | Diverges => Diverges
  end.

(** ** Machine arithmetic *)

Definition INT_MAX : Z := 2147483647.
Definition INT_MIN : Z := -2147483648.

Definition in_int (z : Z) : bool := (INT_MIN <=? z) && (z <=? INT_MAX).

(** [a + b] on [int]: signed overflow is undefined. *)
Definition int_add (a b : Z) : outcome Z :=
  if in_int (a + b) then Ok (a + b) else Fault IntOverflow.

(** Conversion [int -> double]; exact for every 32-bit value. *)
Definition of_int (z : Z) : float :=
  if z <? 0 then PrimFloat.opp (PrimFloat.of_uint63 (Uint63.of_Z (- z)))
  else PrimFloat.of_uint63 (Uint63.of_Z z).

(** The integer obtained from a finite double by discarding its fraction
    (rounding toward zero), and [None] for infinities and NaN. *)
Definition truncate (x : float) : option Z :=
  match Prim2SF x with
  | S754_zero _ => Some 0
  | S754_finite s m e => Some (cond_Zopp s (Z.shiftl (Zpos m) e))
  | S754_infinity _ | S754_nan => None
  end.

(** [static_cast<int>(x)]: truncation; undefined when the truncated value is
    not representable. *)
Definition double_to_int (x : float) : outcome Z :=
  match truncate x with
  | Some z => if in_int z then Ok z else Fault FloatToInt
  | None => Fault FloatToInt
  end.

(** [std::floor]: the largest integral double not above [x]. A double with a
    non-negative exponent is integral already; otherwise the mantissa is
    shifted right with rounding toward minus infinity and the (at most
    53-bit) integer converts back exactly. *)
Definition floor (x : float) : float :=
  match Prim2SF x with
  | S754_finite s m e =>
      if 0 <=? e then x
      else
        let z := Z.shiftl (cond_Zopp s (Zpos m)) e in
        if z =? 0 then PrimFloat.zero else of_int z
  | _ => x
  end.

(** [std::min(a, b)] is [(b < a) ? b : a]; [std::max(a, b)] is
    [(a < b) ? b : a]. *)
Definition std_min (a b : float) : float := if PrimFloat.ltb b a then b else a.
Definition std_max (a b : float) : float := if PrimFloat.ltb a b then b else a.

(** [x != y] and [x > y] on doubles. *)
Definition fneq (x y : float) : bool := negb (PrimFloat.eqb x y).
Definition fgt (x y : float) : bool := PrimFloat.ltb y x.

(** ** Vectors and counted loops *)

(** [v[j]] as an rvalue. *)
Definition vec_get (v : list float) (j : Z) : outcome float :=
  if 0 <=? j then
    match v !! Z.to_nat j with
    | Some x => Ok x
    | None => Fault OutOfBounds
    end
  else Fault OutOfBounds.

(** [v[j] = x]. *)
Definition vec_set (v : list float) (j : Z) (x : float) : outcome (list float) :=
  if (0 <=? j) && (j <? Z.of_nat (length v)) then Ok (<[Z.to_nat j := x]> v)
  else Fault OutOfBounds.

(** [std::vector<double>(n, 0.0)] and [assign(n, 0.0)]: the [int] argument is
    converted to the unsigned size type, so a negative one asks for more
    memory than exists. *)
Definition vec_zeros (n : Z) : outcome (list float) :=
  if n <? 0 then Fault BadAlloc else Ok (replicate (Z.to_nat n) PrimFloat.zero).

(** [for (int i = start; cond(i); i = next(i)) body] on a state [s]. [fuel]
    bounds the number of iterations; a loop that would need more is reported
    as [Diverges]. *)
Fixpoint for_loop {S : Type} (fuel : nat) (cond : Z -> bool) (next : Z -> Z)
    (i : Z) (body : Z -> S -> outcome S) (s : S) : outcome S :=
  if cond i then
    match fuel with
    | O => Diverges
    | Datatypes.S fuel' =>
        s' ← body i s; for_loop fuel' cond next (next i) body s'
    end
  else Ok s.

(** ** Standard input *)

(** A whitespace-separated token of [std::cin], given by what the two
    extractors of the program make of it: [cin >> d] for a [double] and
    [cin >> n] for an [int] ([None]: the text is not an [int]). *)
Record token : Set := mkToken { as_double : float; as_int : option Z }.

Definition real (x : float) : token := mkToken x None.
Definition whole (z : Z) : token := mkToken (of_int z) (Some z).

(** [do { std::cin >> field; } while (!valid(field));]
    At the end of the input the extraction stores nothing, so [field] keeps
    its value [cur] and the loop either leaves at once or never does. *)
Fixpoint read_until (valid : float -> bool) (cur : float) (cin : list token)
    : outcome (float * list token) :=
  match cin with
  | [] => if valid cur then Ok (cur, []) else Diverges
  | t :: rest =>
      if valid (as_double t) then Ok (as_double t, rest)
      else read_until valid (as_double t) rest
  end.

(** [std::cin >> n] into an [int] holding [cur] ([None]: not yet
    initialised). *)
Definition read_int (cur : option Z) (cin : list token) : outcome (Z * list token) :=
  match cin with
  | [] => match cur with Some z => Ok (z, []) | None => Fault Uninitialized end
  | t :: rest =>
      match as_int t with
      | Some z => Ok (z, rest)
      | None => Fault InputFailure
      end
  end.

(** ** The class *)

Record Parameters : Set := mkParameters {
  type : float;   (* 1 for a call, 0 for a put *)
  S0 : float;
  K : float;
  r : float;
  sigma : float;
  T : float
}.

Record Pricer : Set := mkPricer {
  params : Parameters;
  Smax : float;
  N : Z;
  M : Z;
  dS : float;
  dt : float;
  U : list float
}.

(** The constructor leaves [dS] and [dt] uninitialised: their values
    [dS0], [dt0] are whatever the memory holds. *)
Definition FiniteDifferencePricer (p : Parameters) (dS0 dt0 : float) : Pricer :=
  mkPricer p (4.0 * K p)%float 50 2000 dS0 dt0 [].

(** [Parameters params{100.0, 135.0, 0.05, 0.2, 1.0}] of [main]: five
    initialisers for six members, so [type] takes 100 and [T] is
    zero-initialised. *)
Definition main_params : Parameters :=
  mkParameters 100 135 0.05 0.2 1 0.

Definition call_payoff (S K : float) : float := std_max (S - K)%float 0.0%float.

(** The loop conditions of [inputParameters], negated. *)
Definition valid_type (x : float) : bool := negb (fneq x 0 && fneq x 1).
Definition valid_positive (x : float) : bool := negb (x <=? 0)%float.
Definition valid_rate (x : float) : bool := negb ((x <? 0)%float || fgt x 1).
Definition valid_sigma (x : float) : bool := negb ((x <=? 0)%float || fgt x 1).

Definition inputParameters (st : Pricer) (cin : list token)
    : outcome (Pricer * list token) :=
  let p := params st in
  '(type', cin) ← read_until valid_type (type p) cin;
  '(S0', cin) ← read_until valid_positive (S0 p) cin;
  '(K', cin) ← read_until valid_positive (K p) cin;
  '(r', cin) ← read_until valid_rate (r p) cin;
  '(sigma', cin) ← read_until valid_sigma (sigma p) cin;
  '(T', cin) ← read_until valid_positive (T p) cin;
  Ok (mkPricer (mkParameters type' S0' K' r' sigma' T') (4.0 * K')%float
        (N st) (M st) (dS st) (dt st) (U st), cin).

Definition chooseMode (cin : list token) : outcome (Z * list token) :=
  read_int None cin.

(** Lines 131-134 of [configureMode]: the step sizes. *)
Definition set_steps (st : Pricer) (N' : Z) : Pricer :=
  let p := params st in
  let M_target := 100 in
  let dt_max := (T p / of_int M_target)%float in
  let dS' := (Smax st / of_int N')%float in
  let dt' :=
    std_min ((dS' * dS') / (sigma p * sigma p * Smax st * Smax st))%float dt_max in
  mkPricer p (Smax st) N' (M st) dS' dt' (U st).

(** The [switch] of [configureMode]: the number of spatial steps. *)
Definition choose_N (mode : Z) (st : Pricer) (cin : list token)
    : outcome (Z * list token) :=
  match mode with
  | 1 => Ok (2000, cin)
  | 2 => Ok (100, cin)
  | 3 => read_int (Some (N st)) cin
  | _ => Ok (100, cin)
  end.

Definition configureMode (mode : Z) (st : Pricer) (cin : list token)
    : outcome (Pricer * list token) :=
  '(N', cin) ← choose_N mode st cin;
  let st := set_steps st N' in
  q ← double_to_int (T (params st) / dt st)%float;
  M' ← int_add q 1;
  Ok (mkPricer (params st) (Smax st) (N st) M' (dS st) (dt st) (U st), cin).

Definition checkStability (st : Pricer) : bool :=
  let p := params st in
  (dt st <=? dS st * dS st / (sigma p * sigma p * Smax st * Smax st))%float.

(** The coefficients of the recurrence at grid index [j] (lines 155-160). *)
Record coefficients : Set :=
  mkCoefficients { coef_a : float; coef_b : float; coef_c : float }.

Definition recurrence_coefficients (st : Pricer) (j : Z) : coefficients :=
  let p := params st in
  let S := (of_int j * dS st)%float in
  let alpha := ((sigma p * sigma p * S * S * dt st) / (2.0 * dS st * dS st))%float in
  let beta := ((r p * S * dt st) / (2.0 * dS st))%float in
  mkCoefficients (alpha - beta)%float
                 (1.0 - r p * dt st - 2.0 * alpha)%float
                 (alpha + beta)%float.

(** Body of the inner loop (line 161): writes [U[j]] from [U_old]. *)
Definition update_interior (st : Pricer) (U_old : list float) (j : Z)
    (U : list float) : outcome (list float) :=
  let k := recurrence_coefficients st j in
  u_left ← vec_get U_old (j - 1);
  u_mid ← vec_get U_old j;
  u_right ← vec_get U_old (j + 1);
  vec_set U j (coef_a k * u_left + coef_b k * u_mid + coef_c k * u_right)%float.

(** Body of the first loop (line 149). *)
Definition set_payoff (st : Pricer) (j : Z) (U : list float) : outcome (list float) :=
  vec_set U j (call_payoff (of_int j * dS st)%float (K (params st))).

(** Lines 144-150: both vectors allocated, [U] filled with the payoff.
    The result is the pair [(U, U_old)]. *)
Definition initialize (st : Pricer) : outcome (list float * list float) :=
  size ← int_add (N st) 1;
  U ← vec_zeros size;
  U_old ← vec_zeros size;
  U ← for_loop (Z.to_nat (N st + 1)) (fun j => j <=? N st) Z.succ 0
        (set_payoff st) U;
  Ok (U, U_old).

Section WithExp.

(** [std::exp]. *)
Variable exp : float -> float.

(** Remaining time and far-boundary value at loop counter [m]
    (lines 168-169). *)
Definition tau (st : Pricer) (m : Z) : float :=
  (T (params st) - of_int (m - 1) * dt st)%float.

Definition far_boundary (st : Pricer) (m : Z) : float :=
  (Smax st - K (params st) * exp (- r (params st) * tau st m))%float.

(** Body of the time loop (lines 153-169) on the pair [(U, U_old)]. *)
Definition time_step (st : Pricer) (m : Z) (grids : list float * list float)
    : outcome (list float * list float) :=
  let U_old := grids.1 in
  U ← for_loop (Z.to_nat (N st - 1)) (fun j => j <? N st) Z.succ 1
        (update_interior st U_old) grids.1;
  U ← vec_set U 0 0.0%float;
  U ← vec_set U (N st) (far_boundary st m);
  Ok (U, U_old).

(** The time loop [for (int m = ...; m > 0; m--)] entered with counter
    [m]. *)
Definition time_loop (st : Pricer) (fuel : nat) (m : Z)
    (grids : list float * list float) : outcome (list float * list float) :=
  for_loop fuel (fun m => 0 <? m) Z.pred m (time_step st) grids.

Definition computeCallOptionPrice (st : Pricer) : outcome Pricer :=
  grids ← initialize st;
  grids ← time_loop st (Z.to_nat (M st)) (M st) grids;
  Ok (mkPricer (params st) (Smax st) (N st) (M st) (dS st) (dt st) grids.1).

(** Lines 177-179 of [displayResults]. *)
Definition S0_index (st : Pricer) : float := (S0 (params st) / dS st)%float.

Definition index_j0 (st : Pricer) : outcome Z := double_to_int (floor (S0_index st)).

Definition weight (st : Pricer) (j0 : Z) : float := (S0_index st - of_int j0)%float.

(** Lines 181, 186 and 187. *)
Definition price_call (st : Pricer) (j0 : Z) : outcome float :=
  let w := weight st j0 in
  if (0 <=? j0) && (j0 <? N st) then
    u0 ← vec_get (U st) j0;
    u1 ← vec_get (U st) (j0 + 1);
    Ok ((1.0 - w) * u0 + w * u1)%float
  else vec_get (U st) j0.

Definition Delta_call (st : Pricer) (j0 : Z) : outcome float :=
  if (0 <? j0) && (j0 <? N st) then
    u1 ← vec_get (U st) (j0 + 1);
    um ← vec_get (U st) (j0 - 1);
    Ok ((u1 - um) / (2.0 * dS st))%float
  else Ok 0.0%float.

Definition Gamma (st : Pricer) (j0 : Z) : outcome float :=
  if (0 <? j0) && (j0 <? N st) then
    u1 ← vec_get (U st) (j0 + 1);
    u0 ← vec_get (U st) j0;
    um ← vec_get (U st) (j0 - 1);
    Ok ((u1 - 2.0 * u0 + um) / (dS st * dS st))%float
  else Ok 0.0%float.

(** The three numbers printed by [displayResults]. *)
Record results : Set := mkResults { price : float; Delta : float; gamma : float }.

(** Lines 189-196: put-call parity when [type == 0]. *)
Definition adjust_for_type (st : Pricer) (call : results) : results :=
  let p := params st in
  if (type p =? 0)%float then
    mkResults (price call - S0 p + K p * exp (- r p * T p))%float
              (Delta call - of_int 1)%float
              (gamma call)
  else call.

Definition call_results (st : Pricer) : outcome results :=
  j0 ← index_j0 st;
  price_call' ← price_call st j0;
  Delta_call' ← Delta_call st j0;
  Gamma' ← Gamma st j0;
  Ok (mkResults price_call' Delta_call' Gamma').

Definition displayResults (st : Pricer) : outcome results :=
  call ← call_results st;
  Ok (adjust_for_type st call).

(** What a run writes: the step line of [configureMode], then either the
    stability error or the three results. *)
Inductive report : Set :=
| Unstable (dt : float) (M : Z)
| Priced (dt : float) (M : Z) (res : results).

Definition run (st : Pricer) (cin : list token) : outcome report :=
  '(st, cin) ← inputParameters st cin;
  '(mode, cin) ← chooseMode cin;
  '(st, cin) ← configureMode mode st cin;
  if negb (checkStability st) then Ok (Unstable (dt st) (M st))
  else
    st ← computeCallOptionPrice st;
    res ← displayResults st;
    Ok (Priced (dt st) (M st) res).

(** [main], with the uninitialised members of the fresh object as
    arguments. *)
Definition main (dS0 dt0 : float) (cin : list token) : outcome report :=
  run (FiniteDifferencePricer main_params dS0 dt0) cin.

End WithExp.

(** ** Vocabulary of the statements *)

#[global] Instance float_inhabited : Inhabited float := populate PrimFloat.zero.

(** [x] is a number: its IEEE-754 datum is not NaN. *)
Definition not_nan (x : float) : Prop := Prim2SF x <> S754_nan.

(** The body run [count] times with the counter going up, or down, by one:
    what the counted loops of the program amount to. *)
Fixpoint count_up {S : Type} (count : nat) (j : Z)
    (body : Z -> S -> outcome S) (s : S) : outcome S :=
  match count with
  | O => Ok s
  | Datatypes.S c => s' ← body j s; count_up c (j + 1) body s'
  end.

Fixpoint count_down {S : Type} (count : nat) (m : Z)
    (body : Z -> S -> outcome S) (s : S) : outcome S :=
  match count with
  | O => Ok s
  | Datatypes.S c => s' ← body m s; count_down c (m - 1) body s'
  end.

(** [iterations body n m s s']: starting in [s] with loop counter [m], the
    body runs exactly [n] times without fault, the counter going down by one
    each time, and leaves [s']. *)
Inductive iterations {S : Type} (body : Z -> S -> outcome S)
    : nat -> Z -> S -> S -> Prop :=
| iterations_done m s : iterations body 0 m s s
| iterations_step n m s s' s'' :
    body m s = Ok s' ->
    iterations body n (m - 1) s' s'' ->
    iterations body (Datatypes.S n) m s s''.

(** The input left after the first token that [valid] accepts. *)
Fixpoint skip_until (valid : float -> bool) (cin : list token) : option (list token) :=
  match cin with
  | [] => None
  | t :: rest => if valid (as_double t) then Some rest else skip_until valid rest
  end.

(** The input answers every question of a run: an accepted value for each
    of the six parameters, then a mode, then a step count when the mode is
    3. *)
Definition complete_input (cin : list token) : bool :=
  match
    cin ← skip_until valid_type cin;
    cin ← skip_until valid_positive cin;
    cin ← skip_until valid_positive cin;
    cin ← skip_until valid_rate cin;
    cin ← skip_until valid_sigma cin;
    skip_until valid_positive cin
  with
  | Some (mode :: rest) =>
      match as_int mode, rest with
      | Some 3, [] => false
      | _, _ => true
      end
  | _ => false
  end.

(** Both vectors of the solver hold [N + 1] entries. *)
Definition grids_sized (st : Pricer) (g : list float * list float) : Prop :=
  Z.of_nat (length g.1) = N st + 1 /\ Z.of_nat (length g.2) = N st + 1.

(** [x] carries no minus sign: its sign bit is clear, or it is NaN. *)
Definition SF_not_negative (x : spec_float) : Prop :=
  match x with
  | S754_nan => True
  | S754_zero s | S754_infinity s | S754_finite s _ _ => s = false
  end.

Definition not_negative (x : float) : Prop := SF_not_negative (Prim2SF x).

(** The state holds parameters that passed the checks of [inputParameters],
    and the price ceiling that goes with them. *)
Definition validated (st : Pricer) : Prop :=
  let p := params st in
  valid_type (type p) = true
  /\ valid_positive (S0 p) = true
  /\ valid_positive (K p) = true
  /\ valid_rate (r p) = true
  /\ valid_sigma (sigma p) = true
  /\ valid_positive (T p) = true
  /\ Smax st = (4.0 * K p)%float.

(** The integer part of the number a double represents, rounded toward
    minus infinity: [floor((-1)^s * m * 2^e)], and [None] for infinities and
    NaN. ([Z.shiftl] by a negative amount is the division by a power of two
    that rounds down.) *)
Definition exact_floor (x : float) : option Z :=
  match Prim2SF x with
  | S754_zero _ => Some 0
  | S754_finite s m e => Some (Z.shiftl (cond_Zopp s (Zpos m)) e)
  | S754_infinity _ | S754_nan => None
  end.

(** A computable stand-in for [std::exp] (a truncated power series), used
    only to run the model on examples; no statement depends on its
    accuracy. *)
Fixpoint exp_series (n : nat) (x term acc k : float) : float :=
  match n with
  | O => acc
  | Datatypes.S n' =>
      let term' := (term * x / k)%float in
      exp_series n' x term' (acc + term')%float (k + 1)%float
  end.

Definition exp_sample (x : float) : float := exp_series 30 x 1 1 1.

(** Sample states: the parameters after [inputParameters], before
    [configureMode]. *)
Definition sample_state (p : Parameters) : Pricer :=
  mkPricer p (4.0 * K p)%float 50 2000 0 0 [].

(** The scenario of the specification: a call, spot 100, strike 135, rate
    0.05, volatility 0.2, maturity 1, and the state [configureMode] leaves
    in mode 2 ([N = 100], [dt = 0.0025], [M = 401]). *)
Definition sample_params : Parameters := mkParameters 1 100 135 0.05 0.2 1.

Definition sample_sized : Pricer :=
  mkPricer sample_params 540 100 401 (540 / 100) 0.0025 [].

(** The same parameters with four spatial steps (mode 3): [dS = 135],
    [dt = 0.01], [M = 101]. *)
Definition small_sized : Pricer :=
  mkPricer sample_params 540 4 101 135 0.01 [].

(** ** Properties *)

Example floor_examples :
  floor 18.51%float = 18%float /\ floor (-0.5)%float = (-1)%float /\
  floor 0.3%float = 0%float /\ floor 111.11111111111111%float = 111%float /\
  floor (-4)%float = (-4)%float /\ floor 1e300%float = 1e300%float.
Proof. vm_compute. repeat split. Qed.

Example double_to_int_examples :
  double_to_int 401.00000000000006%float = Ok 401 /\
  double_to_int (-2.7)%float = Ok (-2) /\
  double_to_int 4e12%float = Fault FloatToInt /\
  double_to_int PrimFloat.nan = Fault FloatToInt.
Proof. vm_compute. repeat split. Qed.

(** *** Facts about binary64 comparison, [std::min] and NaN *)

Module Binary64.

Lemma SFcompare_refl (x : spec_float) : x <> S754_nan -> SFcompare x x = Some Eq.
Proof.
  destruct x as [s|s| |s m e]; intros Hx; try congruence; simpl.
  - by destruct s.
  - by destruct s.
  - rewrite Z.compare_refl.
    change (Pos.compare_cont Eq m m) with (Pos.compare m m).
    rewrite Pos.compare_refl. by destruct s.
Qed.

Lemma SFcompare_antisym (x y : spec_float) :
  SFcompare y x = option_map CompOpp (SFcompare x y).
Proof.
  destruct x as [s1|s1| |s1 m1 e1], y as [s2|s2| |s2 m2 e2]; simpl;
    try done; try (by destruct s1); try (by destruct s2); try (by destruct s1, s2).
  rewrite (Z.compare_antisym e1 e2).
  change (Pos.compare_cont Eq m2 m1) with (Pos.compare m2 m1).
  change (Pos.compare_cont Eq m1 m2) with (Pos.compare m1 m2).
  rewrite (Pos.compare_antisym m1 m2).
  destruct s1, s2, (e1 ?= e2); simpl; try done;
    destruct (m1 ?= m2)%positive; done.
Qed.

Lemma ltb_leb (x y : float) : (x <? y)%float = true -> (x <=? y)%float = true.
Proof.
  rewrite FloatAxioms.ltb_spec, FloatAxioms.leb_spec. unfold SFltb, SFleb.
  destruct (SFcompare _ _) as [[]|]; congruence.
Qed.

Lemma leb_refl (x : float) : not_nan x -> (x <=? x)%float = true.
Proof.
  intros Hx. rewrite FloatAxioms.leb_spec. unfold SFleb. by rewrite SFcompare_refl.
Qed.

Lemma ltb_irrefl (x : float) : (x <? x)%float = false.
Proof.
  rewrite FloatAxioms.ltb_spec. unfold SFltb.
  destruct (Prim2SF x) as [s|s| |s m e] eqn:E; try done.
  - by destruct s.
  - by rewrite SFcompare_refl.
Qed.

Lemma not_ltb_leb (x y : float) :
  not_nan x -> not_nan y -> (x <? y)%float = false -> (y <=? x)%float = true.
Proof.
  unfold not_nan. rewrite FloatAxioms.ltb_spec, FloatAxioms.leb_spec. unfold SFltb, SFleb.
  rewrite (SFcompare_antisym (Prim2SF x) (Prim2SF y)).
  intros Hx Hy.
  destruct (Prim2SF x) as [s1|s1| |s1 m1 e1], (Prim2SF y) as [s2|s2| |s2 m2 e2];
    try congruence;
    destruct (SFcompare _ _) as [[]|] eqn:E; simpl; try congruence; simpl in E; try done.
Qed.

(** Rounding a non-negative mantissa never yields NaN. *)
Lemma shr_1_nonneg mrs : 0 <= shr_m mrs -> 0 <= shr_m (shr_1 mrs).
Proof.
  destruct mrs as [m rb sb]; simpl.
  destruct m as [|[p|p|]|[p|p|]]; simpl; lia.
Qed.

Lemma iter_pos_shr_1_nonneg p mrs :
  0 <= shr_m mrs -> 0 <= shr_m (SpecFloat.iter_pos shr_1 p mrs).
Proof.
  revert mrs. induction p as [p IH|p IH|]; intros mrs Hm; simpl.
  - apply IH, IH. by apply shr_1_nonneg.
  - by apply IH, IH.
  - by apply shr_1_nonneg.
Qed.

Lemma shr_fexp_nonneg prec emax m e l :
  0 <= m -> 0 <= shr_m (shr_fexp prec emax m e l).1.
Proof.
  intros Hm. unfold shr_fexp, shr.
  assert (0 <= shr_m (shr_record_of_loc m l)) by (by destruct l as [|[]]).
  destruct (_ - e); simpl; try done.
  by apply iter_pos_shr_1_nonneg.
Qed.

Lemma round_nearest_even_nonneg m l : 0 <= m -> 0 <= round_nearest_even m l.
Proof.
  intros Hm. destruct l as [|[]]; simpl; try lia. destruct (Z.even m); lia.
Qed.

Lemma binary_round_aux_not_nan prec emax s m e l :
  0 <= m -> binary_round_aux prec emax s m e l <> S754_nan.
Proof.
  intros Hm. unfold binary_round_aux.
  pose proof (shr_fexp_nonneg prec emax m e l Hm) as H1.
  destruct (shr_fexp prec emax m e l) as [mrs' e'] eqn:E1. simpl in H1.
  pose proof (shr_fexp_nonneg prec emax _ e' loc_Exact
                (round_nearest_even_nonneg _ (loc_of_shr_record mrs') H1)) as H2.
  destruct (shr_fexp prec emax (round_nearest_even _ _) e' loc_Exact) as [mrs'' e''].
  simpl in H2. destruct (shr_m mrs''); try done; try lia.
  by destruct (_ <=? _).
Qed.

Lemma SFdiv_core_binary_nonneg prec emax m1 e1 m2 e2 :
  0 <= (SFdiv_core_binary prec emax (Zpos m1) e1 (Zpos m2) e2).1.1.
Proof.
  unfold SFdiv_core_binary.
  set (s := _ - _ - Z.min _ _).
  set (m' := match s with Z0 => _ | Zpos _ => _ | Zneg _ => _ end).
  assert (0 <= m') as Hm'.
  { subst m'. destruct s; try lia. apply Z.shiftl_nonneg. lia. }
  pose proof (Z_div_mod m' (Zpos m2) ltac:(lia)) as Hdiv.
  destruct (Z.div_eucl m' (Zpos m2)) as [q rem]. simpl.
  destruct Hdiv as [Heq Hrem]. nia.
Qed.

Lemma SFdiv_finite_not_nan prec emax x s m e :
  x <> S754_nan -> SFdiv prec emax x (S754_finite s m e) <> S754_nan.
Proof.
  intros Hx. destruct x as [sx|sx| |sx mx ex]; simpl; try done.
  pose proof (SFdiv_core_binary_nonneg prec emax mx ex m e) as H.
  destruct (SFdiv_core_binary _ _ _ _ _ _) as [[mz ez] lz]. simpl in H.
  by apply binary_round_aux_not_nan.
Qed.

Lemma SFdiv_not_nan prec emax x y :
  SFdiv prec emax x y <> S754_nan -> x <> S754_nan /\ y <> S754_nan.
Proof. destruct x, y; simpl; try done. Qed.

Lemma div_not_nan (x y : float) : not_nan (x / y)%float -> not_nan x /\ not_nan y.
Proof. unfold not_nan. rewrite FloatAxioms.div_spec. apply SFdiv_not_nan. Qed.

Lemma div_by_100_not_nan (x : float) : not_nan x -> not_nan (x / of_int 100)%float.
Proof.
  unfold not_nan. rewrite FloatAxioms.div_spec. intros Hx.
  destruct (Prim2SF (of_int 100)) as [s|s| |s m e] eqn:E; try (vm_compute in E; discriminate).
  by apply SFdiv_finite_not_nan.
Qed.

Lemma truncate_not_nan (x : float) z : truncate x = Some z -> not_nan x.
Proof. unfold truncate, not_nan. by destruct (Prim2SF x). Qed.

Lemma double_to_int_not_nan (x : float) z : double_to_int x = Ok z -> not_nan x.
Proof.
  unfold double_to_int. destruct (truncate x) eqn:E; try done.
  intros _. by eapply truncate_not_nan.
Qed.

Create HintDb binary64 discriminated.
#[export] Hint Resolve ltb_leb leb_refl ltb_irrefl not_ltb_leb : binary64.

Lemma std_min_le_l (a b : float) :
  not_nan (std_min a b) -> (std_min a b <=? a)%float = true.
Proof. unfold std_min. destruct (b <? a)%float eqn:E; auto with binary64. Qed.

Lemma std_min_le_r (a b : float) :
  not_nan (std_min a b) -> not_nan b -> (std_min a b <=? b)%float = true.
Proof. unfold std_min. destruct (b <? a)%float eqn:E; auto with binary64. Qed.

End Binary64.

Import Binary64.

(** *** Signs of binary64 results *)

Module Binary64Sign.

Lemma binary_round_aux_not_negative prec emax m e l :
  SF_not_negative (binary_round_aux prec emax false m e l).
Proof.
  unfold binary_round_aux.
  destruct (shr_fexp prec emax m e l) as [mrs' e'].
  destruct (shr_fexp prec emax _ e' loc_Exact) as [mrs'' e''].
  destruct (shr_m mrs''); simpl; try done. by destruct (_ <=? _).
Qed.

Lemma SFmul_not_negative prec emax x y :
  SF_not_negative x -> SF_not_negative y -> SF_not_negative (SFmul prec emax x y).
Proof.
  destruct x as [sx|sx| |sx mx ex], y as [sy|sy| |sy my ey]; simpl;
    try done; intros -> ->; simpl; try done.
  apply binary_round_aux_not_negative.
Qed.

Lemma SFmul_square_not_negative prec emax x :
  SF_not_negative (SFmul prec emax x x).
Proof.
  destruct x as [sx|sx| |sx mx ex]; simpl;
    [by destruct sx | by destruct sx | done |].
  replace (xorb sx sx) with false by (by destruct sx).
  apply binary_round_aux_not_negative.
Qed.

Lemma SFdiv_not_negative prec emax x y :
  SF_not_negative x -> SF_not_negative y -> SF_not_negative (SFdiv prec emax x y).
Proof.
  destruct x as [sx|sx| |sx mx ex], y as [sy|sy| |sy my ey]; simpl;
    try done; intros -> ->; simpl; try done.
  destruct (SFdiv_core_binary _ _ _ _ _ _) as [[mz ez] lz].
  apply binary_round_aux_not_negative.
Qed.

Lemma mul_not_negative (x y : float) :
  not_negative x -> not_negative y -> not_negative (x * y)%float.
Proof. unfold not_negative. rewrite FloatAxioms.mul_spec. apply SFmul_not_negative. Qed.

Lemma square_not_negative (x : float) : not_negative (x * x)%float.
Proof. unfold not_negative. rewrite FloatAxioms.mul_spec. apply SFmul_square_not_negative. Qed.

Lemma div_not_negative (x y : float) :
  not_negative x -> not_negative y -> not_negative (x / y)%float.
Proof. unfold not_negative. rewrite FloatAxioms.div_spec. apply SFdiv_not_negative. Qed.

Lemma std_min_not_negative (a b : float) :
  not_negative a -> not_negative b -> not_negative (std_min a b).
Proof. unfold std_min. by destruct (_ <? _)%float. Qed.

Lemma Prim2SF_zero : Prim2SF 0 = S754_zero false.
Proof. vm_compute. reflexivity. Qed.

(** A value the check [x <= 0] rejects is positive or NaN. *)
Lemma valid_positive_not_negative (x : float) :
  valid_positive x = true -> not_negative x.
Proof.
  unfold valid_positive, not_negative. rewrite FloatAxioms.leb_spec, Prim2SF_zero.
  unfold SFleb. destruct (Prim2SF x) as [s|s| |s m e]; simpl; try done;
    by destruct s.
Qed.

Lemma of_int_not_negative (z : Z) : 0 <= z -> not_negative (of_int z).
Proof.
  intros Hz. unfold of_int, not_negative.
  rewrite (proj2 (Z.ltb_ge z 0)) by lia.
  rewrite FloatAxioms.of_uint63_spec.
  pose proof (Uint63.to_Z_bounded (Uint63.of_Z z)) as [Hlo _].
  destruct (Uint63.to_Z (Uint63.of_Z z)) as [|p|p]; simpl; try done; try lia.
  unfold binary_round. destruct (shl_align _ _ _) as [mz ez].
  apply binary_round_aux_not_negative.
Qed.

Lemma truncate_not_negative (x : float) (z : Z) :
  truncate x = Some z -> not_negative x -> 0 <= z.
Proof.
  unfold truncate, not_negative.
  destruct (Prim2SF x) as [s|s| |s m e]; simpl; try done.
  - intros [= <-]. lia.
  - intros [= <-] ->. simpl. apply Z.shiftl_nonneg. lia.
Qed.

Lemma floor_not_negative (x : float) : not_negative x -> not_negative (floor x).
Proof.
  unfold floor. intros Hx. pose proof Hx as Hx'. unfold not_negative in Hx'.
  destruct (Prim2SF x) as [s|s| |s m e] eqn:E; try done.
  simpl in Hx'. subst s. destruct (0 <=? e); [done|]. simpl.
  destruct (Z.shiftl (Z.pos m) e =? 0) eqn:Ez.
  - vm_compute. reflexivity.
  - apply of_int_not_negative. apply Z.shiftl_nonneg. lia.
Qed.

Lemma is_nan_spec (x : float) : is_nan x = true <-> Prim2SF x = S754_nan.
Proof.
  unfold is_nan. rewrite FloatAxioms.eqb_spec. unfold SFeqb. split.
  - intros H. destruct (Prim2SF x) as [s|s| |s m e] eqn:E; try done;
      rewrite SFcompare_refl in H; done.
  - by intros ->.
Qed.

(** On numbers, [x <= y] is the negation of [y < x]. *)
Lemma leb_negb_ltb (x y : float) :
  not_nan x -> not_nan y -> (x <=? y)%float = negb (y <? x)%float.
Proof.
  unfold not_nan. rewrite FloatAxioms.ltb_spec, FloatAxioms.leb_spec.
  unfold SFltb, SFleb. rewrite (SFcompare_antisym (Prim2SF x) (Prim2SF y)).
  intros Hx Hy.
  destruct (Prim2SF x) as [s1|s1| |s1 m1 e1], (Prim2SF y) as [s2|s2| |s2 m2 e2];
    try congruence;
    destruct (SFcompare _ _) as [[]|] eqn:E; simpl; try congruence; simpl in E; try done.
Qed.

Lemma cmp_nan_l (x y : float) :
  Prim2SF x = S754_nan ->
  (x <? y)%float = false /\ (x <=? y)%float = false
  /\ (y <? x)%float = false /\ (y <=? x)%float = false.
Proof.
  intros H. rewrite !FloatAxioms.ltb_spec, !FloatAxioms.leb_spec, H.
  unfold SFltb, SFleb. by destruct (Prim2SF y).
Qed.

End Binary64Sign.

Import Binary64Sign.

(** *** [std::floor] followed by the conversion to [int] is exact *)

Module Binary64Exact.

Lemma digits2_pos_bounds (p : positive) :
  2 ^ (Zpos (digits2_pos p) - 1) <= Zpos p < 2 ^ Zpos (digits2_pos p).
Proof.
  induction p as [p IH|p IH|]; simpl digits2_pos.
  - rewrite Pos2Z.inj_succ.
    replace (Z.succ (Zpos (digits2_pos p)) - 1) with (Z.succ (Zpos (digits2_pos p) - 1))
      by lia.
    rewrite !Z.pow_succ_r by lia. lia.
  - rewrite Pos2Z.inj_succ.
    replace (Z.succ (Zpos (digits2_pos p)) - 1) with (Z.succ (Zpos (digits2_pos p) - 1))
      by lia.
    rewrite !Z.pow_succ_r by lia. lia.
  - simpl. lia.
Qed.

Lemma digits2_pos_le (p : positive) (d : Z) :
  0 <= d -> Zpos p < 2 ^ d -> Zpos (digits2_pos p) <= d.
Proof.
  intros Hd Hp. destruct (digits2_pos_bounds p) as [Hlo _].
  destruct (Z.le_gt_cases (Zpos (digits2_pos p)) d) as [|Hgt]; [done|].
  assert (2 ^ d <= 2 ^ (Zpos (digits2_pos p) - 1))
    by (apply Z.pow_le_mono_r; lia).
  lia.
Qed.

Lemma iter_xO_value (k : positive) (p : positive) :
  Zpos (Pos.iter xO p k) = Zpos p * 2 ^ Zpos k.
Proof.
  induction k as [|k IH] using Pos.peano_ind.
  - simpl. lia.
  - rewrite Pos.iter_succ, Pos2Z.inj_succ, Z.pow_succ_r by lia.
    rewrite Pos2Z.inj_xO, IH. lia.
Qed.

Lemma iter_xO_digits (k : positive) (p : positive) :
  Zpos (digits2_pos (Pos.iter xO p k)) = Zpos (digits2_pos p) + Zpos k.
Proof.
  induction k as [|k IH] using Pos.peano_ind.
  - simpl. lia.
  - rewrite Pos.iter_succ. simpl digits2_pos. rewrite Pos2Z.inj_succ, IH. lia.
Qed.

(** A mantissa of 53 digits with an exponent in the normal range is its
    own rounding. *)
Lemma binary_round_aux_exact (s : bool) (m : positive) (e : Z) :
  Zpos (digits2_pos m) = 53 -> -1074 <= e <= 971 ->
  binary_round_aux prec emax s (Zpos m) e loc_Exact = S754_finite s m e.
Proof.
  intros Hd He.
  assert (shr_fexp prec emax (Zpos m) e loc_Exact
          = (Build_shr_record (Zpos m) false false, e)) as Hshr.
  { unfold shr_fexp, fexp, emin, shr, prec, emax. simpl Zdigits2. rewrite Hd.
    replace (Z.max (53 + e - 53) (3 - 1024 - 53) - e) with 0 by lia. done. }
  unfold binary_round_aux. rewrite Hshr. simpl. rewrite Hshr. simpl.
  unfold prec, emax. by rewrite (proj2 (Z.leb_le e (1024 - 53))) by lia.
Qed.

(** The conversion of a positive integer below 2^53 to a double is exact. *)
Lemma binary_normalize_exact (p : positive) :
  Zpos p < 2 ^ 53 ->
  exists m e, binary_normalize prec emax (Zpos p) 0 false = S754_finite false m e
              /\ Z.shiftl (Zpos m) e = Zpos p.
Proof.
  intros Hp. simpl. unfold binary_round.
  pose proof (digits2_pos_le p 53 ltac:(lia) Hp) as Hd.
  assert (fexp prec emax (Zpos (digits2_pos p) + 0) = Zpos (digits2_pos p) - 53) as ->
    by (unfold fexp, emin, prec, emax; lia).
  unfold shl_align.
  destruct (Zpos (digits2_pos p) - 53 - 0) as [|k|k] eqn:Ek; try lia.
  - exists p, 0. split; [|done].
    apply binary_round_aux_exact; lia.
  - exists (Pos.iter xO p k), (Zpos (digits2_pos p) - 53). split.
    + apply binary_round_aux_exact; [rewrite iter_xO_digits; lia | lia].
    + rewrite iter_xO_value.
      replace (Zpos (digits2_pos p) - 53) with (- Zpos k) by lia.
      rewrite Z.shiftl_opp_r, Z.shiftr_div_pow2 by lia.
      apply Z.div_mul. lia.
Qed.

Lemma truncate_of_int (z : Z) : - 2 ^ 53 < z < 2 ^ 53 -> truncate (of_int z) = Some z.
Proof.
  intros Hz. unfold truncate, of_int.
  assert (forall p, Zpos p < 2 ^ 53 ->
            Uint63.to_Z (Uint63.of_Z (Zpos p)) = Zpos p) as Hphi.
  { intros p Hp. rewrite Uint63.of_Z_spec. apply Z.mod_small.
    change Uint63Axioms.wB with (2 ^ 63). split; [lia|].
    assert (2 ^ 53 < 2 ^ 63) by (apply Z.pow_lt_mono_r; lia). lia. }
  destruct z as [|p|p].
  - vm_compute. reflexivity.
  - change (Z.pos p <? 0) with false. cbv iota.
    rewrite FloatAxioms.of_uint63_spec, Hphi by lia.
    destruct (binary_normalize_exact p ltac:(lia)) as (m & e & -> & He).
    simpl. by rewrite He.
  - change (Z.neg p <? 0) with true. cbv iota.
    change (- Z.neg p) with (Z.pos p).
    rewrite FloatAxioms.opp_spec, FloatAxioms.of_uint63_spec, Hphi by lia.
    destruct (binary_normalize_exact p ltac:(lia)) as (m & e & -> & He).
    simpl. by rewrite He.
Qed.

(** The mantissa of a double has at most 53 digits. *)
Lemma Prim2SF_mantissa_bound (x : float) s m e :
  Prim2SF x = S754_finite s m e -> Zpos m < 2 ^ 53.
Proof.
  intros E. pose proof (Prim2SF_valid x) as Hv. rewrite E in Hv.
  simpl in Hv. unfold bounded, canonical_mantissa in Hv.
  apply andb_true_iff in Hv as [Hc _]. apply Z.eqb_eq in Hc.
  unfold fexp, emin, prec, emax in Hc.
  destruct (digits2_pos_bounds m) as [_ Hhi].
  assert (Zpos (digits2_pos m) <= 53) as Hd by lia.
  assert (2 ^ Zpos (digits2_pos m) <= 2 ^ 53) by (apply Z.pow_le_mono_r; lia).
  lia.
Qed.

Lemma truncate_floor (x : float) : truncate (floor x) = exact_floor x.
Proof.
  unfold floor, exact_floor.
  destruct (Prim2SF x) as [s|s| |s m e] eqn:E.
  - unfold truncate. by rewrite E.
  - unfold truncate. by rewrite E.
  - unfold truncate. by rewrite E.
  - pose proof (Prim2SF_mantissa_bound x s m e E) as Hm.
    destruct (0 <=? e) eqn:He.
    + apply Z.leb_le in He. unfold truncate. rewrite E. f_equal.
      rewrite !Z.shiftl_mul_pow2 by lia. destruct s; simpl; lia.
    + apply Z.leb_gt in He. simpl.
      set (z := Z.shiftl (cond_Zopp s (Zpos m)) e).
      assert (- 2 ^ 53 < z < 2 ^ 53) as Hz.
      { subst z. replace e with (- - e) by lia.
        rewrite Z.shiftl_opp_r, Z.shiftr_div_pow2 by lia.
        assert (0 < 2 ^ (- e)) as Hpow by (apply Z.pow_pos_nonneg; lia).
        destruct s; simpl.
        - split.
          + apply Z.lt_le_trans with (- Zpos m); [lia|].
            apply Z.div_le_lower_bound; [lia|]. nia.
          + apply Z.le_lt_trans with 0; [|lia].
            apply Z.lt_succ_r. apply Z.div_lt_upper_bound; lia.
        - split.
          + apply Z.lt_le_trans with 0; [lia|]. apply Z.div_pos; lia.
          + apply Z.le_lt_trans with (Zpos m); [|lia].
            apply Z.div_le_upper_bound; [lia|]. nia. }
      destruct (z =? 0) eqn:Ez.
      * apply Z.eqb_eq in Ez. rewrite Ez. vm_compute. reflexivity.
      * by apply truncate_of_int.
Qed.

(** [static_cast<int>(std::floor(x))] is the exact integer part of [x]
    when that is an [int], and undefined otherwise. *)
Lemma double_to_int_floor (x : float) (j : Z) :
  double_to_int (floor x) = Ok j <-> exact_floor x = Some j /\ in_int j = true.
Proof.
  unfold double_to_int. rewrite truncate_floor.
  destruct (exact_floor x) as [z|]; [|split; [done | by intros [? _]]].
  destruct (in_int z) eqn:Ez; split.
  - by intros [= <-].
  - by intros [[= <-] _].
  - done.
  - intros [[= <-] H]. congruence.
Qed.

End Binary64Exact.

Import Binary64Exact.


(** *** Grid sizing: [configureMode] and [checkStability] *)

Lemma bind_Ok_inv {A B : Type} (c : outcome A) (k : A -> outcome B) (y : B) :
  c ≫= k = Ok y -> exists x, c = Ok x /\ k x = Ok y.
Proof. destruct c as [x| |]; simpl; [eauto | done | done]. Qed.

Lemma int_add_Ok_inv (x y z : Z) : int_add x y = Ok z -> z = x + y.
Proof. unfold int_add. destruct (in_int _); congruence. Qed.

(** What a completed [configureMode] has stored. *)
Lemma configureMode_Ok_inv mode st cin st' cin' :
  configureMode mode st cin = Ok (st', cin') ->
  exists N' q,
    choose_N mode st cin = Ok (N', cin') /\
    double_to_int (T (params st) / dt (set_steps st N'))%float = Ok q /\
    st' = mkPricer (params st) (Smax st) N' (q + 1)
            (dS (set_steps st N')) (dt (set_steps st N')) (U st).
Proof.
  unfold configureMode. intros H.
  apply bind_Ok_inv in H as [[N' cin1] [HN H]].
  apply bind_Ok_inv in H as [q [Hq H]].
  apply bind_Ok_inv in H as [M' [HM H]].
  apply int_add_Ok_inv in HM. simpl in *.
  exists N', q. by simplify_eq.
Qed.

(** After a completed [configureMode] the time step is a number. *)
Lemma configureMode_dt_not_nan mode st cin st' cin' :
  configureMode mode st cin = Ok (st', cin') ->
  not_nan (dt st') /\ not_nan (T (params st')).
Proof.
  intros H. apply configureMode_Ok_inv in H as (N' & q & _ & Hq & ->).
  apply double_to_int_not_nan, div_not_nan in Hq. simpl in *. tauto.
Qed.

(** The step sizes of lines 131-134 pass the stability test as soon as the
    bound is a number. *)
Lemma set_steps_stable st (N' : Z) :
  let st' := set_steps st N' in
  not_nan (dS st' * dS st' /
             (sigma (params st') * sigma (params st') * Smax st' * Smax st'))%float ->
  checkStability st' = true.
Proof.
  cbv zeta. unfold checkStability. simpl. intros Hb.
  unfold std_min at 1.
  destruct (_ <? _)%float eqn:E; [by apply ltb_leb | by apply leb_refl].
Qed.

(** C1 fails on the code. Whenever the stability bound
    [dS * dS / (sigma * sigma * Smax * Smax)] evaluates to NaN, [std::min]
    hands that NaN on as the time step, the comparison [dt <= bound] is
    false, [checkStability] returns false, and the conversion
    [static_cast<int>(T / dt)] of line 135 is applied to NaN, for which it is
    undefined. *)
Theorem C1_nan_bound_fails_stability st (N' : Z) :
  let st' := set_steps st N' in
  let bound :=
    (dS st' * dS st' /
       (sigma (params st') * sigma (params st') * Smax st' * Smax st'))%float in
  is_nan bound = true ->
  is_nan (dt st') = true
  /\ (dt st' <=? bound)%float = false
  /\ checkStability st' = false
  /\ (forall mode cin cin',
        choose_N mode st cin = Ok (N', cin') ->
        configureMode mode st cin = Fault FloatToInt).
Proof.
  cbv zeta. simpl. intros Hb. pose proof Hb as Hnan. apply is_nan_spec in Hnan.
  set (bound := (Smax st / of_int N' * (Smax st / of_int N') /
                   (sigma (params st) * sigma (params st) * Smax st * Smax st))%float)
    in *.
  destruct (cmp_nan_l bound (T (params st) / of_int 100)%float Hnan)
    as (_ & _ & Hlt & _).
  destruct (cmp_nan_l bound bound Hnan) as (_ & Hle & _).
  assert (std_min bound (T (params st) / of_int 100)%float = bound) as Hmin
    by (unfold std_min; by rewrite Hlt).
  rewrite Hmin. split; [done|]. split; [done|]. split.
  - unfold checkStability. simpl. fold bound. by rewrite Hmin.
  - intros mode cin cin' HN. unfold configureMode. rewrite HN. simpl.
    fold bound. rewrite Hmin.
    unfold double_to_int, truncate. rewrite FloatAxioms.div_spec, Hnan.
    by destruct (Prim2SF (T (params st))).
Qed.

(** A strike of 1e200 passes the input step; both squares overflow and the
    bound is inf / inf. *)
Lemma C1_nan_bound_fails_stability_witness :
  let p := mkParameters 1 100 1e200 0.05 0.2 1 in
  inputParameters (FiniteDifferencePricer main_params 0 0)
    [real 1; real 100; real 1e200; real 0.05; real 0.2; real 1]
    = Ok (sample_state p, [])
  /\ checkStability (set_steps (sample_state p) 100) = false
  /\ configureMode 2 (sample_state p) [] = Fault FloatToInt.
Proof.
  set (p0 := mkParameters 1 100 1e200 0.05 0.2 1).
  split; [vm_compute; reflexivity|].
  pose proof (C1_nan_bound_fails_stability (sample_state p0) 100
                ltac:(vm_compute; reflexivity)) as (_ & _ & Hs & Hc).
  split; [exact Hs|]. by apply (Hc 2 [] []).
Defined.

(** C8, as amended. A completed [configureMode] has stored
    [dS = Smax / N], [dt = std::min(dS*dS / (sigma*sigma*Smax*Smax), T / 100)]
    and [M = static_cast<int>(T / dt) + 1], and [dt <= T / 100]. *)
Theorem C8_time_step_capped mode st cin st' cin' :
  configureMode mode st cin = Ok (st', cin') ->
  let p := params st' in
  dS st' = (Smax st' / of_int (N st'))%float
  /\ dt st' = std_min (dS st' * dS st' / (sigma p * sigma p * Smax st' * Smax st'))%float
                      (T p / 100)%float
  /\ (exists q, double_to_int (T p / dt st')%float = Ok q /\ M st' = q + 1)
  /\ (dt st' <=? T p / 100)%float = true.
Proof.
  intros H. destruct (configureMode_dt_not_nan _ _ _ _ _ H) as [Hdt HT].
  apply configureMode_Ok_inv in H as (N' & q & _ & Hq & ->).
  simpl in *. repeat split.
  - exists q. by split.
  - apply std_min_le_r; [exact Hdt | by apply div_by_100_not_nan].
Qed.

Lemma C8_time_step_capped_witness :
  configureMode 2 (sample_state sample_params) [] = Ok (sample_sized, [])
  /\ (dt sample_sized <=? T sample_params / 100)%float = true.
Proof.
  assert (configureMode 2 (sample_state sample_params) [] = Ok (sample_sized, []))
    as H by (vm_compute; reflexivity).
  split; [exact H |].
  exact (proj2 (proj2 (proj2 (C8_time_step_capped _ _ _ _ _ H)))).
Defined.

(** C8 as stated fails for a maturity of 0.45 (volatility 0.1, mode 2):
    [dt = T / 100] rounds up, so [T / dt] is 99.99999999999999 and not at
    least 100; the truncation gives 99 and [M = 100]. *)
Example C8_counterexample_quotient_below_100 :
  let p := mkParameters 1 100 135 0.05 0.1 0.45 in
  valid_positive (T p) = true /\ valid_sigma (sigma p) = true
  /\ match configureMode 2 (sample_state p) [] with
     | Ok (st', _) =>
         0 < N st'
         /\ dt st' = (T p / 100)%float
         /\ (100 <=? T p / dt st')%float = false
         /\ (T p / dt st')%float = 99.999999999999986%float
         /\ M st' = 100
     | _ => False
     end.
Proof. vm_compute. repeat split. Qed.

(** *** Vectors and counted loops *)

Lemma vec_get_in_range (v : list float) (j : Z) :
  0 <= j < Z.of_nat (length v) -> vec_get v j = Ok (v !!! Z.to_nat j).
Proof.
  intros Hj. unfold vec_get. rewrite (proj2 (Z.leb_le 0 j)) by lia.
  destruct (v !! Z.to_nat j) as [x|] eqn:E.
  - by rewrite (list_lookup_total_correct _ _ _ E).
  - apply lookup_ge_None_1 in E. lia.
Qed.

Lemma vec_get_lookup (v : list float) (j : Z) (x : float) :
  0 <= j -> v !! Z.to_nat j = Some x -> vec_get v j = Ok x.
Proof.
  intros Hj E. unfold vec_get. rewrite (proj2 (Z.leb_le 0 j)) by lia. by rewrite E.
Qed.

Lemma vec_get_beyond (v : list float) (j : Z) :
  Z.of_nat (length v) <= j -> vec_get v j = Fault OutOfBounds.
Proof.
  intros Hj. unfold vec_get. destruct (0 <=? j); [|done].
  rewrite lookup_ge_None_2; [done | lia].
Qed.

Lemma vec_set_in_range (v : list float) (j : Z) (x : float) :
  0 <= j < Z.of_nat (length v) -> vec_set v j x = Ok (<[Z.to_nat j := x]> v).
Proof.
  intros Hj. unfold vec_set.
  rewrite (proj2 (Z.leb_le 0 j)), (proj2 (Z.ltb_lt j _)) by lia. done.
Qed.

(** A loop whose body at index [i] stores [f i] in slot [i] leaves [f i] in
    every slot it visited and the other slots as they were. *)
Lemma count_up_writes (body : Z -> list float -> outcome (list float))
    (f : Z -> float) (count : nat) :
  forall (j : Z) (V : list float),
  (forall i W, j <= i < j + Z.of_nat count -> body i W = vec_set W i (f i)) ->
  0 <= j -> j + Z.of_nat count <= Z.of_nat (length V) ->
  exists V', count_up count j body V = Ok V' /\ length V' = length V /\
    forall i : Z, 0 <= i ->
      V' !! Z.to_nat i =
        if bool_decide (j <= i < j + Z.of_nat count) then Some (f i)
        else V !! Z.to_nat i.
Proof.
  induction count as [|count IH]; intros j V Hbody Hj Hlen.
  - exists V. split; [done|]. split; [done|]. intros i Hi.
    rewrite bool_decide_eq_false_2; [done | lia].
  - simpl. rewrite Hbody by lia. rewrite vec_set_in_range by lia. simpl.
    destruct (IH (j + 1) (<[Z.to_nat j := f j]> V)) as (V' & Hrun & HlenV' & Hget).
    + intros i W Hi. apply Hbody. lia.
    + lia.
    + rewrite length_insert. lia.
    + exists V'. split; [exact Hrun|]. split; [by rewrite HlenV', length_insert|].
      intros i Hi. rewrite Hget by done.
      destruct (decide (i = j)) as [->|Hne].
      * rewrite bool_decide_eq_false_2 by lia.
        rewrite bool_decide_eq_true_2 by lia.
        apply list_lookup_insert_eq. lia.
      * rewrite list_lookup_insert_ne by lia.
        case_bool_decide; case_bool_decide; try done; lia.
Qed.

(** With fuel for every iteration its bounds allow, an upward loop is the
    counted iteration: it leaves by its condition, never for lack of fuel. *)
Lemma for_loop_lt_counted {S : Type} (body : Z -> S -> outcome S) (hi : Z)
    (fuel : nat) :
  forall (lo : Z) (s : S),
  (Z.to_nat (hi - lo) <= fuel)%nat ->
  for_loop fuel (fun j => j <? hi) Z.succ lo body s =
    count_up (Z.to_nat (hi - lo)) lo body s.
Proof.
  induction fuel as [|fuel IH]; intros lo s Hfuel.
  - assert (hi <= lo) as Hle by lia.
    replace (Z.to_nat (hi - lo)) with 0%nat by lia. simpl.
    by rewrite (proj2 (Z.ltb_ge lo hi)).
  - simpl. destruct (lo <? hi) eqn:E.
    + apply Z.ltb_lt in E.
      replace (Z.to_nat (hi - lo)) with (Datatypes.S (Z.to_nat (hi - Z.succ lo))) by lia.
      simpl. destruct (body lo s) as [s'| |]; simpl; try done.
      rewrite IH by lia. by replace (lo + 1) with (Z.succ lo) by lia.
    + apply Z.ltb_ge in E. by replace (Z.to_nat (hi - lo)) with 0%nat by lia.
Qed.

Lemma for_loop_le_counted {S : Type} (body : Z -> S -> outcome S) (hi : Z)
    (fuel : nat) (lo : Z) (s : S) :
  (Z.to_nat (hi + 1 - lo) <= fuel)%nat ->
  for_loop fuel (fun j => j <=? hi) Z.succ lo body s =
    count_up (Z.to_nat (hi + 1 - lo)) lo body s.
Proof.
  intros Hfuel. rewrite <- (for_loop_lt_counted body (hi + 1) fuel lo s Hfuel).
  revert lo s Hfuel. induction fuel as [|fuel IH]; intros lo s Hfuel; simpl.
  - destruct (lo <=? hi) eqn:E1, (lo <? hi + 1) eqn:E2; try done; lia.
  - destruct (lo <=? hi) eqn:E1, (lo <? hi + 1) eqn:E2; try lia.
    + destruct (body lo s) as [s'| |]; simpl; try done. apply IH. lia.
    + done.
Qed.

Lemma for_loop_down_counted {S : Type} (body : Z -> S -> outcome S)
    (fuel : nat) :
  forall (m : Z) (s : S),
  (Z.to_nat m <= fuel)%nat ->
  for_loop fuel (fun m => 0 <? m) Z.pred m body s =
    count_down (Z.to_nat m) m body s.
Proof.
  induction fuel as [|fuel IH]; intros m s Hfuel.
  - replace (Z.to_nat m) with 0%nat by lia. simpl.
    by rewrite (proj2 (Z.ltb_ge 0 m)) by lia.
  - simpl. destruct (0 <? m) eqn:E.
    + apply Z.ltb_lt in E.
      replace (Z.to_nat m) with (Datatypes.S (Z.to_nat (Z.pred m))) by lia.
      simpl. destruct (body m s) as [s'| |]; simpl; try done.
      rewrite IH by lia. by replace (m - 1) with (Z.pred m) by lia.
    + apply Z.ltb_ge in E. by replace (Z.to_nat m) with 0%nat by lia.
Qed.

Lemma count_down_app {S : Type} (body : Z -> S -> outcome S) (n1 n2 : nat) :
  forall (m : Z) (s : S),
  count_down (n1 + n2) m body s =
    count_down n1 m body s ≫= count_down n2 (m - Z.of_nat n1) body.
Proof.
  induction n1 as [|n1 IH]; intros m s.
  - simpl. by rewrite Z.sub_0_r.
  - simpl. destruct (body m s) as [s'| |]; simpl; try done.
    rewrite IH. by replace (m - 1 - Z.of_nat n1) with (m - Z.of_nat (Datatypes.S n1)) by lia.
Qed.

Lemma count_down_iterations {S : Type} (body : Z -> S -> outcome S) (n : nat) :
  forall (m : Z) (s s' : S),
  count_down n m body s = Ok s' <-> iterations body n m s s'.
Proof.
  induction n as [|n IH]; intros m s s'.
  - simpl. split.
    + intros [= ->]. constructor.
    + inversion 1. done.
  - simpl. split.
    + intros H. apply bind_Ok_inv in H as (s1 & H1 & H2).
      econstructor; [exact H1 | by apply IH].
    + inversion 1 as [|? ? ? s1 ? H1 H2]; subst.
      rewrite H1. simpl. by apply IH.
Qed.

(** A body that keeps an invariant and never faults under it runs any number
    of times. *)
Lemma count_down_invariant {S : Type} (body : Z -> S -> outcome S) (I : S -> Prop) :
  (forall m s, I s -> exists s', body m s = Ok s' /\ I s') ->
  forall (n : nat) (m : Z) (s : S), I s ->
  exists s', count_down n m body s = Ok s' /\ I s'.
Proof.
  intros Hbody. induction n as [|n IH]; intros m s Hs.
  - by exists s.
  - simpl. destruct (Hbody m s Hs) as (s1 & -> & Hs1). simpl. by apply IH.
Qed.

(** *** The solver: initialisation and time stepping *)

Lemma initialize_spec st :
  -1 <= N st < INT_MAX ->
  exists U U_old, initialize st = Ok (U, U_old)
    /\ Z.of_nat (length U) = N st + 1
    /\ Z.of_nat (length U_old) = N st + 1
    /\ forall j, 0 <= j <= N st ->
         U !! Z.to_nat j =
           Some (call_payoff (of_int j * dS st)%float (K (params st))).
Proof.
  intros HN. unfold initialize, int_add, vec_zeros.
  assert (in_int (N st + 1) = true) as ->.
  { unfold in_int, INT_MIN, INT_MAX in *. apply andb_true_iff. split; lia. }
  simpl. rewrite (proj2 (Z.ltb_ge (N st + 1) 0)) by lia. simpl.
  set (zeros := replicate (Z.to_nat (N st + 1)) PrimFloat.zero).
  assert (Z.of_nat (length zeros) = N st + 1) as Hz.
  { subst zeros. rewrite length_replicate. lia. }
  rewrite for_loop_le_counted by lia. rewrite Z.sub_0_r.
  destruct (count_up_writes (set_payoff st)
              (fun j => call_payoff (of_int j * dS st)%float (K (params st)))
              (Z.to_nat (N st + 1)) 0 zeros) as (U & -> & HlenU & Hget).
  - done.
  - lia.
  - lia.
  - simpl. exists U, zeros. split; [done|]. split; [lia|]. split; [done|].
    intros j Hj. rewrite Hget by lia. rewrite bool_decide_eq_true_2; [done | lia].
Qed.

(** [initialize] completes only when [N + 1] is a representable,
    non-negative size. *)
Lemma initialize_Ok_inv st g : initialize st = Ok g -> -1 <= N st < INT_MAX.
Proof.
  unfold initialize, int_add, vec_zeros, in_int, INT_MIN, INT_MAX.
  destruct (_ && _) eqn:E; simpl; [|done].
  apply andb_true_iff in E as [_ E]. apply Z.leb_le in E.
  destruct (N st + 1 <? 0) eqn:E'; simpl; [done|].
  apply Z.ltb_ge in E'. lia.
Qed.

(** The value the recurrence stores at [j], read from the layer [U_old]. *)
Lemma update_interior_in_range st (U_old : list float) (j : Z) (W : list float) :
  1 <= j -> j + 1 < Z.of_nat (length U_old) ->
  update_interior st U_old j W =
    vec_set W j
      (coef_a (recurrence_coefficients st j) * (U_old !!! Z.to_nat (j - 1))
       + coef_b (recurrence_coefficients st j) * (U_old !!! Z.to_nat j)
       + coef_c (recurrence_coefficients st j) * (U_old !!! Z.to_nat (j + 1)))%float.
Proof.
  intros H1 H2. unfold update_interior.
  rewrite !vec_get_in_range by lia. done.
Qed.

Lemma time_step_spec (exp : float -> float) st (m : Z) (U X : list float) :
  0 <= N st -> Z.of_nat (length U) = N st + 1 ->
  exists U', time_step exp st m (U, X) = Ok (U', U)
    /\ length U' = length U
    /\ U' !! Z.to_nat (N st) = Some (far_boundary exp st m)
    /\ (0 < N st -> U' !! 0%nat = Some 0%float)
    /\ forall j, 1 <= j <= N st - 1 ->
         U' !! Z.to_nat j =
           Some (coef_a (recurrence_coefficients st j) * (U !!! Z.to_nat (j - 1))
                 + coef_b (recurrence_coefficients st j) * (U !!! Z.to_nat j)
                 + coef_c (recurrence_coefficients st j) * (U !!! Z.to_nat (j + 1)))%float.
Proof.
  intros HN Hlen. unfold time_step. simpl.
  rewrite for_loop_lt_counted by lia.
  destruct (count_up_writes (update_interior st U)
    (fun j => (coef_a (recurrence_coefficients st j) * (U !!! Z.to_nat (j - 1))
               + coef_b (recurrence_coefficients st j) * (U !!! Z.to_nat j)
               + coef_c (recurrence_coefficients st j) * (U !!! Z.to_nat (j + 1)))%float)
    (Z.to_nat (N st - 1)) 1 U) as (U1 & -> & Hlen1 & Hget1).
  - intros i W Hi. apply update_interior_in_range; lia.
  - lia.
  - lia.
  - simpl. rewrite vec_set_in_range by lia. simpl.
    rewrite vec_set_in_range by (rewrite length_insert; lia). simpl.
    eexists. split; [done|].
    split; [by rewrite !length_insert|].
    split; [apply list_lookup_insert_eq; rewrite length_insert; lia|].
    split.
    + intros HN'. rewrite list_lookup_insert_ne by lia.
      apply list_lookup_insert_eq. lia.
    + intros j Hj. rewrite !list_lookup_insert_ne by lia.
      rewrite Hget1 by lia. rewrite bool_decide_eq_true_2; [done | lia].
Qed.

Lemma time_step_sized (exp : float -> float) st (m : Z) g :
  0 <= N st -> grids_sized st g ->
  exists g', time_step exp st m g = Ok g' /\ grids_sized st g'.
Proof.
  intros HN [H1 H2]. destruct g as [U X]. simpl in *.
  destruct (time_step_spec exp st m U X HN H1) as (U' & -> & Hlen & _).
  exists (U', U). split; [done|]. split; simpl; lia.
Qed.

Lemma time_loop_sized (exp : float -> float) st (n : nat) (m : Z) g :
  0 <= N st -> grids_sized st g ->
  exists g', count_down n m (time_step exp st) g = Ok g' /\ grids_sized st g'.
Proof.
  intros HN Hg.
  apply (count_down_invariant (time_step exp st) (grids_sized st)); [|done].
  intros m' s Hs. by apply time_step_sized.
Qed.

(** C5. Immediately after initialisation, before any time step, the grid
    has [N + 1] entries and holds the call payoff [max(j * dS - K, 0)] at
    every index [j] of [0 .. N]; the initialisation completes whenever
    [N + 1] is a representable size. *)
Theorem C5_initial_grid_is_payoff st :
  (0 <= N st < INT_MAX -> exists U U_old, initialize st = Ok (U, U_old))
  /\ forall U U_old, initialize st = Ok (U, U_old) ->
       Z.of_nat (length U) = N st + 1
       /\ forall j, 0 <= j <= N st ->
            vec_get U j = Ok (std_max (of_int j * dS st - K (params st)) 0)%float.
Proof.
  split.
  - intros HN.
    destruct (initialize_spec st ltac:(lia)) as (U & U_old & Hinit & _).
    by exists U, U_old.
  - intros U U_old Hinit.
    destruct (initialize_spec st (initialize_Ok_inv _ _ Hinit))
      as (U' & U_old' & Hinit' & HlenU & _ & Hget).
    rewrite Hinit in Hinit'. injection Hinit' as -> ->.
    split; [done|].
    intros j Hj. apply vec_get_lookup; [lia|]. by rewrite Hget.
Qed.

Lemma C5_initial_grid_is_payoff_witness :
  initialize small_sized = Ok ([0; 0; 135; 270; 405]%float, [0; 0; 0; 0; 0]%float)
  /\ vec_get [0; 0; 135; 270; 405]%float 3
     = Ok (std_max (of_int 3 * 135 - 135) 0)%float.
Proof.
  assert (initialize small_sized
          = Ok ([0; 0; 135; 270; 405]%float, [0; 0; 0; 0; 0]%float)) as H
    by (vm_compute; reflexivity).
  split; [exact H|].
  apply (proj2 (proj2 (C5_initial_grid_is_payoff small_sized) _ _ H)).
  simpl. lia.
Defined.

(** C3. One time step on a grid of [N + 1] entries completes, hands the
    grid it started from over as the previous layer, and stores at every
    interior index [j] the value [a * old[j-1] + b * old[j] + c * old[j+1]]
    read from that previous layer, with the coefficients of the scheme. *)
Theorem C3_interior_recurrence (exp : float -> float) st (m : Z)
    (U U_old : list float) (j : Z) :
  Z.of_nat (length U) = N st + 1 ->
  1 <= j <= N st - 1 ->
  let p := params st in
  let S := (of_int j * dS st)%float in
  let alpha := ((sigma p * sigma p * S * S * dt st) / (2 * dS st * dS st))%float in
  let beta := ((r p * S * dt st) / (2 * dS st))%float in
  let a := (alpha - beta)%float in
  let b := (1 - r p * dt st - 2 * alpha)%float in
  let c := (alpha + beta)%float in
  exists U', time_step exp st m (U, U_old) = Ok (U', U)
    /\ vec_get U' j =
         Ok (a * (U !!! Z.to_nat (j - 1)) + b * (U !!! Z.to_nat j)
             + c * (U !!! Z.to_nat (j + 1)))%float.
Proof.
  intros Hlen Hj. cbv zeta.
  destruct (time_step_spec exp st m U U_old ltac:(lia) Hlen)
    as (U' & Hstep & _ & _ & _ & Hget).
  exists U'. split; [done|].
  apply vec_get_lookup; [lia|]. by rewrite Hget.
Qed.

Lemma C3_interior_recurrence_witness :
  let U := [0; 0; 135; 270; 405]%float in
  let k := recurrence_coefficients small_sized 2 in
  exists U', time_step exp_sample small_sized 101 (U, []) = Ok (U', U)
    /\ vec_get U' 2 =
         Ok (coef_a k * 0 + coef_b k * 135 + coef_c k * 270)%float.
Proof.
  apply (C3_interior_recurrence exp_sample small_sized 101
           [0; 0; 135; 270; 405]%float [] 2); [reflexivity | simpl; lia].
Defined.



(** The solver completes on every state whose [N + 1] is a representable
    size, and returns the state with a grid of [N + 1] entries. *)
Lemma computeCallOptionPrice_sized (exp : float -> float) st :
  0 <= N st < INT_MAX ->
  exists gM,
    computeCallOptionPrice exp st =
      Ok (mkPricer (params st) (Smax st) (N st) (M st) (dS st) (dt st) gM.1)
    /\ grids_sized st gM.
Proof.
  intros HN.
  destruct (initialize_spec st ltac:(lia)) as (U0 & X0 & Hinit & HlenU & HlenX & _).
  destruct (time_loop_sized exp st (Z.to_nat (M st)) (M st) (U0, X0) ltac:(lia))
    as (gM & Hloop & HsM).
  { by split. }
  exists gM. split; [|done].
  unfold computeCallOptionPrice, time_loop. rewrite Hinit. simpl.
  rewrite for_loop_down_counted by lia. by rewrite Hloop.
Qed.

(** C9, as amended. For [0 < N < INT_MAX] and [M >= 0] the solver allocates
    both vectors with [N + 1] entries, runs the body of the time loop
    exactly [M] times with every vector access inside the vectors, and
    returns a grid of [N + 1] entries. *)
Theorem C9_solver_in_bounds_and_terminates (exp : float -> float) st :
  0 < N st < INT_MAX ->
  0 <= M st ->
  exists g0 gM,
    initialize st = Ok g0
    /\ grids_sized st g0
    /\ iterations (time_step exp st) (Z.to_nat (M st)) (M st) g0 gM
    /\ Z.of_nat (Z.to_nat (M st)) = M st
    /\ grids_sized st gM
    /\ computeCallOptionPrice exp st =
         Ok (mkPricer (params st) (Smax st) (N st) (M st) (dS st) (dt st) gM.1).
Proof.
  intros HN HM.
  destruct (initialize_spec st ltac:(lia)) as (U0 & X0 & Hinit & HlenU & HlenX & _).
  destruct (time_loop_sized exp st (Z.to_nat (M st)) (M st) (U0, X0) ltac:(lia))
    as (gM & Hloop & HsM).
  { by split. }
  exists (U0, X0), gM. split; [done|]. split; [by split|].
  split; [by apply count_down_iterations|]. split; [lia|]. split; [done|].
  unfold computeCallOptionPrice, time_loop. rewrite Hinit. simpl.
  rewrite for_loop_down_counted by lia. by rewrite Hloop.
Qed.

Lemma C9_solver_in_bounds_and_terminates_witness :
  exists g0 gM,
    initialize small_sized = Ok g0
    /\ grids_sized small_sized g0
    /\ iterations (time_step exp_sample small_sized) 101 101 g0 gM
    /\ Z.of_nat 101 = 101
    /\ grids_sized small_sized gM
    /\ computeCallOptionPrice exp_sample small_sized =
         Ok (mkPricer sample_params 540 4 101 135 0.01 gM.1).
Proof.
  apply (C9_solver_in_bounds_and_terminates exp_sample small_sized);
    [unfold INT_MAX; simpl; lia | simpl; lia].
Defined.

(** C9 as stated fails for [N = INT_MAX], which mode 3 accepts: the size
    [N + 1] of the vectors overflows [int]. With volatility 1e-5 the sizing
    step completes ([M] fits in an [int]) and the run reaches the solver. *)
Example C9_counterexample_int_max :
  0 < INT_MAX
  /\ run exp_sample (FiniteDifferencePricer main_params 0 0)
       [whole 1; real 100; real 135; real 0.05; real 1e-5; whole 1;
        whole 3; whole INT_MAX]
     = Fault IntOverflow
  /\ computeCallOptionPrice exp_sample
       (mkPricer sample_params 540 INT_MAX 401 0 0 []) = Fault IntOverflow.
Proof. vm_compute. repeat split. Qed.

Example small_sized_from_input :
  configureMode 3 (sample_state sample_params) [whole 4] = Ok (small_sized, []).
Proof. vm_compute. reflexivity. Qed.

(** *** Evaluation: [displayResults] *)

Lemma price_call_beyond_grid st (j0 : Z) :
  N st < j0 -> Z.of_nat (length (U st)) <= j0 -> price_call st j0 = Fault OutOfBounds.
Proof.
  intros HN Hlen. unfold price_call.
  rewrite (proj2 (Z.ltb_ge j0 (N st))) by lia. rewrite andb_false_r.
  by apply vec_get_beyond.
Qed.

(** A spot whose index [j0] lies beyond [N] makes [displayResults] read
    [U[j0]] outside the grid. *)
Lemma displayResults_beyond_grid (exp : float -> float) st (j0 : Z) :
  index_j0 st = Ok j0 -> N st < j0 -> Z.of_nat (length (U st)) = N st + 1 ->
  displayResults exp st = Fault OutOfBounds.
Proof.
  intros Hj HN Hlen. unfold displayResults, call_results. rewrite Hj. simpl.
  rewrite price_call_beyond_grid by lia. done.
Qed.

(** C2 fails on the code. Whenever the index [j0] of the spot lies beyond
    [N], the solver completes and [displayResults] then reads the price from
    [U[j0]], outside the grid of [N + 1] entries: there is no clamp to
    [U[N]]. *)
Theorem C2_spot_beyond_grid_reads_out_of_bounds (exp : float -> float) st (j0 : Z) :
  0 <= N st < INT_MAX ->
  index_j0 st = Ok j0 ->
  N st < j0 ->
  (st' ← computeCallOptionPrice exp st; displayResults exp st')
  = Fault OutOfBounds.
Proof.
  intros HN Hj Hbeyond.
  destruct (computeCallOptionPrice_sized exp st HN) as (gM & -> & Hlen & _).
  simpl. by apply (displayResults_beyond_grid exp _ j0).
Qed.

(** With spot 600, strike 135 and mode 2 the ceiling is 540, [dS = 5.4] and
    [j0 = 111 > N = 100]. *)
Lemma C2_spot_beyond_grid_reads_out_of_bounds_witness :
  let st := mkPricer (mkParameters 1 600 135 0.05 0.2 1) 540 100 401
              (540 / 100) 0.0025 [] in
  index_j0 st = Ok 111
  /\ (st' ← computeCallOptionPrice exp_sample st; displayResults exp_sample st')
     = Fault OutOfBounds.
Proof.
  set (st0 := mkPricer (mkParameters 1 600 135 0.05 0.2 1) 540 100 401
                (540 / 100) 0.0025 []).
  assert (index_j0 st0 = Ok 111) as Hj by (vm_compute; reflexivity).
  split; [exact Hj|].
  apply (C2_spot_beyond_grid_reads_out_of_bounds exp_sample st0 111);
    [unfold INT_MAX; simpl; lia | exact Hj | simpl; lia].
Defined.

(** The whole run on that input, whatever [std::exp] returns. *)
Example run_with_spot_beyond_grid (exp : float -> float) :
  main exp 0 0
    [whole 1; real 600; real 135; real 0.05; real 0.2; whole 1; whole 2]
  = Fault OutOfBounds.
Proof. vm_compute. reflexivity. Qed.

(** Just above the ceiling the index is still [N] and the edge value is
    returned. *)
Example spot_in_last_cell_reads_edge :
  index_j0 (mkPricer (mkParameters 1 541 135 0.05 0.2 1) 540 100 401 (540 / 100) 0.0025 [])
  = Ok 100.
Proof. vm_compute. reflexivity. Qed.

(** C7. Let [j0] be the integer part [floor(S0 / dS)] of the index of the
    spot and [w = S0 / dS - j0], on a grid of [N + 1] entries. When
    [0 <= j0 < N], the call values that [displayResults] computes are: the
    linear interpolation [(1 - w) * U[j0] + w * U[j0+1]] for the price, and
    for Delta and Gamma the central first and second differences when
    [0 < j0], and 0 when [j0 = 0]. At the edge [j0 = N] the price is
    [U[N]] and Delta and Gamma are 0. Wherever [0 < j0 < N] fails, the Delta
    and Gamma expressions evaluate to 0. *)
Theorem C7_interpolation_and_greeks (exp : float -> float) st (j0 : Z) :
  exact_floor (S0 (params st) / dS st) = Some j0 ->
  Z.of_nat (length (U st)) = N st + 1 ->
  N st <= INT_MAX ->
  let w := (S0 (params st) / dS st - of_int j0)%float in
  let u := fun i : Z => U st !!! Z.to_nat i in
  let price_interpolated := ((1 - w) * u j0 + w * u (j0 + 1)%Z)%float in
  let central_first := ((u (j0 + 1)%Z - u (j0 - 1)%Z) / (2 * dS st))%float in
  let central_second :=
    ((u (j0 + 1)%Z - 2 * u j0 + u (j0 - 1)%Z) / (dS st * dS st))%float in
  (0 < j0 < N st ->
     call_results st = Ok (mkResults price_interpolated central_first central_second)
     /\ displayResults exp st =
          Ok (adjust_for_type exp st
                (mkResults price_interpolated central_first central_second)))
  /\ (j0 = 0 -> 0 < N st ->
        call_results st = Ok (mkResults price_interpolated 0 0)
        /\ displayResults exp st =
             Ok (adjust_for_type exp st (mkResults price_interpolated 0 0)))
  /\ (j0 = N st -> 0 <= N st ->
        call_results st = Ok (mkResults (u j0) 0 0)
        /\ displayResults exp st =
             Ok (adjust_for_type exp st (mkResults (u j0) 0 0)))
  /\ (~ 0 < j0 < N st ->
        Delta_call st j0 = Ok 0%float /\ Gamma st j0 = Ok 0%float).
Proof.
  intros Hfloor Hlen HN. cbv zeta.
  assert (-1 <= N st) as HN' by lia.
  assert (0 <= j0 <= N st -> index_j0 st = Ok j0) as Hj.
  { intros Hr. unfold index_j0, S0_index. apply double_to_int_floor.
    split; [done|]. unfold in_int, INT_MIN, INT_MAX in *.
    apply andb_true_iff. split; apply Z.leb_le; lia. }
  split; [|split; [|split]].
  - intros Hr.
    assert (call_results st
            = Ok (mkResults
                    ((1 - (S0 (params st) / dS st - of_int j0))
                       * (U st !!! Z.to_nat j0)
                     + (S0 (params st) / dS st - of_int j0)
                       * (U st !!! Z.to_nat (j0 + 1)))%float
                    ((U st !!! Z.to_nat (j0 + 1) - U st !!! Z.to_nat (j0 - 1))
                     / (2 * dS st))%float
                    ((U st !!! Z.to_nat (j0 + 1) - 2 * (U st !!! Z.to_nat j0)
                      + U st !!! Z.to_nat (j0 - 1)) / (dS st * dS st))%float))
      as Hc.
    { unfold call_results, price_call, Delta_call, Gamma, weight, S0_index.
      rewrite (Hj ltac:(lia)). simpl.
      rewrite (proj2 (Z.leb_le 0 j0)), (proj2 (Z.ltb_lt 0 j0)),
        (proj2 (Z.ltb_lt j0 (N st))) by lia. simpl.
      rewrite !vec_get_in_range by lia. done. }
    split; [exact Hc|]. unfold displayResults. by rewrite Hc.
  - intros -> HN0.
    assert (call_results st
            = Ok (mkResults
                    ((1 - (S0 (params st) / dS st - of_int 0))
                       * (U st !!! Z.to_nat 0)
                     + (S0 (params st) / dS st - of_int 0)
                       * (U st !!! Z.to_nat (0 + 1)))%float 0 0)) as Hc.
    { unfold call_results, price_call, Delta_call, Gamma, weight, S0_index.
      rewrite (Hj ltac:(lia)). simpl.
      rewrite (proj2 (Z.ltb_lt 0 (N st))) by lia. simpl.
      rewrite !vec_get_in_range by lia. done. }
    split; [exact Hc|]. unfold displayResults. by rewrite Hc.
  - intros -> HN0.
    assert (call_results st = Ok (mkResults (U st !!! Z.to_nat (N st)) 0 0)) as Hc.
    { unfold call_results, price_call, Delta_call, Gamma.
      rewrite (Hj ltac:(lia)). simpl. rewrite Z.ltb_irrefl, !andb_false_r. simpl.
      rewrite vec_get_in_range by lia. done. }
    split; [exact Hc|]. unfold displayResults. by rewrite Hc.
  - intros Hout. split.
    + unfold Delta_call. destruct (0 <? j0) eqn:E1, (j0 <? N st) eqn:E2; simpl; try done.
      apply Z.ltb_lt in E1, E2. lia.
    + unfold Gamma. destruct (0 <? j0) eqn:E1, (j0 <? N st) eqn:E2; simpl; try done.
      apply Z.ltb_lt in E1, E2. lia.
Qed.

(** Spot 300 on the grid of four cells of width 135: [j0 = 2], inside the
    grid, where Delta and Gamma are the central differences. *)
Lemma C7_interpolation_and_greeks_witness :
  let st := mkPricer (mkParameters 1 300 135 0.05 0.2 1) 540 4 101 135 0.01
              [0; 6; 141; 276; 411]%float in
  exact_floor (300 / 135) = Some 2
  /\ call_results st =
       Ok (mkResults ((1 - (300 / 135 - 2)) * 141 + (300 / 135 - 2) * 276)%float
                     ((276 - 6) / (2 * 135))%float
                     ((276 - 2 * 141 + 6) / (135 * 135))%float).
Proof.
  set (st0 := mkPricer (mkParameters 1 300 135 0.05 0.2 1) 540 4 101 135 0.01
                [0; 6; 141; 276; 411]%float).
  assert (exact_floor (S0 (params st0) / dS st0) = Some 2) as Hf
    by (vm_compute; reflexivity).
  split; [exact Hf|].
  pose proof (C7_interpolation_and_greeks exp_sample st0 2 Hf eq_refl
                ltac:(unfold INT_MAX; simpl; lia)) as (Hin & _).
  exact (proj1 (Hin ltac:(simpl; lia))).
Defined.

Lemma eqb_1_not_0 (x : float) : (x =? 1)%float = true -> (x =? 0)%float = false.
Proof.
  rewrite !FloatAxioms.eqb_spec. unfold SFeqb.
  assert (Prim2SF 1 = S754_finite false 4503599627370496 (-52)) as ->
    by (vm_compute; reflexivity).
  assert (Prim2SF 0 = S754_zero false) as -> by (vm_compute; reflexivity).
  destruct (Prim2SF x) as [s|s| |s m e]; cbn [SFcompare]; try done.
  - by destruct s.
  - by destruct s.
Qed.

(** C6. From the call values [(price_call, Delta_call, Gamma)] of the
    grid: for a put ([type == 0]) the reported price is
    [price_call - S0 + K * exp(-r * T)], the reported Delta is
    [Delta_call - 1] and Gamma is unchanged; for a call ([type == 1], or
    any [type] that is not 0) the three values are reported unchanged. *)
Theorem C6_put_call_adjustment (exp : float -> float) st (call : results) :
  call_results st = Ok call ->
  let p := params st in
  ((type p =? 0)%float = true ->
     displayResults exp st =
       Ok (mkResults (price call - S0 p + K p * exp (- r p * T p))%float
                     (Delta call - 1)%float
                     (gamma call)))
  /\ ((type p =? 0)%float = false -> displayResults exp st = Ok call)
  /\ ((type p =? 1)%float = true -> displayResults exp st = Ok call).
Proof.
  intros Hcall. cbv zeta. unfold displayResults, adjust_for_type.
  rewrite Hcall. simpl. repeat split.
  - by intros ->.
  - by intros ->.
  - intros H1. by rewrite (eqb_1_not_0 _ H1).
Qed.

Lemma C6_put_call_adjustment_witness :
  let st := mkPricer (mkParameters 0 100 135 0.05 0.2 1) 540 4 101 135 0.01
              [0; 6; 141; 276; 411]%float in
  let call := mkResults ((1 - (100 / 135 - 0)) * 0 + (100 / 135 - 0) * 6)%float 0 0 in
  call_results st = Ok call
  /\ displayResults exp_sample st =
       Ok (mkResults (price call - 100 + 135 * exp_sample (- 0.05 * 1))%float
                     (0 - 1)%float 0).
Proof.
  set (st0 := mkPricer (mkParameters 0 100 135 0.05 0.2 1) 540 4 101 135 0.01
                [0; 6; 141; 276; 411]%float).
  set (call0 := mkResults ((1 - (100 / 135 - 0)) * 0 + (100 / 135 - 0) * 6)%float 0 0).
  assert (call_results st0 = Ok call0) as Hc by (vm_compute; reflexivity).
  split; [exact Hc|].
  exact (proj1 (C6_put_call_adjustment exp_sample st0 call0 Hc) eq_refl).
Defined.

(** *** The input step and the whole run *)

(** Once the input holds an accepted value, the validation loop returns it
    whatever the field held before. *)
Lemma read_until_supplied (valid : float -> bool) (cin rest : list token) :
  skip_until valid cin = Some rest ->
  exists v, forall cur, read_until valid cur cin = Ok (v, rest).
Proof.
  induction cin as [|t cin IH]; simpl; [done|].
  destruct (valid (as_double t)) eqn:E.
  - intros [= <-]. by exists (as_double t).
  - intros H. destruct (IH H) as [v Hv]. exists v. intros _. apply Hv.
Qed.

(** On such an input [inputParameters] overwrites the six parameters and
    [Smax], and nothing of what it stores comes from the state. *)
Lemma inputParameters_supplied (cin rest : list token) :
  (cin ← skip_until valid_type cin;
   cin ← skip_until valid_positive cin;
   cin ← skip_until valid_positive cin;
   cin ← skip_until valid_rate cin;
   cin ← skip_until valid_sigma cin;
   skip_until valid_positive cin) = Some rest ->
  exists p, forall st,
    inputParameters st cin =
      Ok (mkPricer p (4.0 * K p)%float (N st) (M st) (dS st) (dt st) (U st), rest).
Proof.
  intros H.
  destruct (skip_until valid_type cin) as [c1|] eqn:E1; simpl in H; [|done].
  destruct (skip_until valid_positive c1) as [c2|] eqn:E2; simpl in H; [|done].
  destruct (skip_until valid_positive c2) as [c3|] eqn:E3; simpl in H; [|done].
  destruct (skip_until valid_rate c3) as [c4|] eqn:E4; simpl in H; [|done].
  destruct (skip_until valid_sigma c4) as [c5|] eqn:E5; simpl in H; [|done].
  destruct (read_until_supplied _ _ _ E1) as [v1 H1].
  destruct (read_until_supplied _ _ _ E2) as [v2 H2].
  destruct (read_until_supplied _ _ _ E3) as [v3 H3].
  destruct (read_until_supplied _ _ _ E4) as [v4 H4].
  destruct (read_until_supplied _ _ _ E5) as [v5 H5].
  destruct (read_until_supplied _ _ _ H) as [v6 H6].
  exists (mkParameters v1 v2 v3 v4 v5 v6). intros st.
  unfold inputParameters.
  rewrite H1; simpl. rewrite H2; simpl. rewrite H3; simpl.
  rewrite H4; simpl. rewrite H5; simpl. rewrite H6; simpl. done.
Qed.

(** The step count chosen by [configureMode] comes from the mode and the
    input, unless mode 3 finds the input exhausted. *)
Lemma choose_N_from_input (mode : Z) st1 st2 (cin : list token) :
  (mode = 3 -> cin <> []) -> choose_N mode st1 cin = choose_N mode st2 cin.
Proof.
  intros H. unfold choose_N.
  destruct mode as [|[[[]|[]|]|[[]|[]|]|]|]; try done.
  destruct cin; [by destruct H | done].
Qed.

(** Past the input step, a run uses [params] and [Smax] of the state and
    overwrites the rest before reading it. *)
Lemma run_after_input (exp : float -> float) (p : Parameters) (sm : float)
    (n1 n2 m1 m2 : Z) (d1 d2 t1 t2 : float) (u1 u2 : list float)
    (mode : Z) (cin : list token) :
  (mode = 3 -> cin <> []) ->
  ('(st, cin) ← configureMode mode (mkPricer p sm n1 m1 d1 t1 u1) cin;
   if negb (checkStability st) then Ok (Unstable (dt st) (M st))
   else
     st ← computeCallOptionPrice exp st;
     res ← displayResults exp st;
     Ok (Priced (dt st) (M st) res))
  =
  ('(st, cin) ← configureMode mode (mkPricer p sm n2 m2 d2 t2 u2) cin;
   if negb (checkStability st) then Ok (Unstable (dt st) (M st))
   else
     st ← computeCallOptionPrice exp st;
     res ← displayResults exp st;
     Ok (Priced (dt st) (M st) res)).
Proof.
  intros Hmode. unfold configureMode.
  rewrite (choose_N_from_input mode _ (mkPricer p sm n2 m2 d2 t2 u2) cin Hmode).
  destruct (choose_N mode _ cin) as [[N' cin']| |]; simpl; try done.
  destruct (double_to_int _) as [q| |]; simpl; try done.
  destruct (int_add q 1) as [M'| |]; simpl; try done.
Qed.

(** C10. On an input that answers every question of the run, the outcome
    (fault, or the step line and the price, Delta and Gamma) is a function
    of the input alone: it is the same from any two initial states of the
    object, in particular from any [Parameters] given to the constructor,
    the five-value default of [main] included. *)
Theorem C10_run_depends_only_on_input (exp : float -> float)
    (st1 st2 : Pricer) (cin : list token) :
  complete_input cin = true ->
  run exp st1 cin = run exp st2 cin
  /\ forall (p : Parameters) (dS1 dt1 dS0 dt0 : float),
       run exp (FiniteDifferencePricer p dS1 dt1) cin = main exp dS0 dt0 cin.
Proof.
  intros Hc.
  assert (forall s1 s2, run exp s1 cin = run exp s2 cin) as Hrun.
  { intros s1 s2. unfold complete_input in Hc.
    destruct (_ ≫= _) as [[|tok rest]|] eqn:E in Hc; try done.
    destruct (inputParameters_supplied _ _ E) as [p Hp].
    unfold run. rewrite !Hp. simpl.
    unfold chooseMode, read_int.
    destruct (as_int tok) as [mode|] eqn:Etok; simpl; [|done].
    apply run_after_input.
    intros -> ->. done. }
  split; [apply Hrun|]. intros. apply Hrun.
Qed.

Lemma C10_run_depends_only_on_input_witness :
  let cin := [whole 1; real 100; real 135; real 0.05; real 0.2; whole 1; whole 2] in
  run exp_sample (FiniteDifferencePricer sample_params 3 7) cin =
  run exp_sample (FiniteDifferencePricer main_params 0 0) cin.
Proof.
  exact (proj1 (C10_run_depends_only_on_input exp_sample
    (FiniteDifferencePricer sample_params 3 7)
    (FiniteDifferencePricer main_params 0 0)
    [whole 1; real 100; real 135; real 0.05; real 0.2; whole 1; whole 2]
    eq_refl)).
Defined.

(** When the input ends early the run does depend on the constructor: the
    default of [main] has [type = 100], which the first loop never accepts,
    while accepted defaults let the run reach the mode question. *)
Example exhausted_input_depends_on_constructor :
  main exp_sample 0 0 [] = Diverges
  /\ run exp_sample (FiniteDifferencePricer sample_params 0 0) []
     = Fault Uninitialized.
Proof. vm_compute. split; reflexivity. Qed.

(** The scenario of the specification, run from [main]. *)
Example scenario_run :
  main exp_sample 0 0
    [whole 1; real 100; real 135; real 0.05; real 0.2; whole 1; whole 2]
  = Ok (Priced 0.0025 401
          (mkResults 1.1804308658426688 0.099621857280974987
                     0.0087974785917926054)).
Proof. vm_compute. reflexivity. Qed.

(** ** Further properties of the code *)

(** *** The validation loops of [inputParameters] *)

Lemma read_until_accepts (valid : float -> bool) (cin : list token) :
  forall cur v rest,
  read_until valid cur cin = Ok (v, rest) ->
  valid v = true /\ exists consumed, cin = consumed ++ rest.
Proof.
  induction cin as [|t cin IH]; intros cur v rest; simpl.
  - destruct (valid cur) eqn:E; [|done]. intros [= <- <-]. split; [done|]. by exists [].
  - destruct (valid (as_double t)) eqn:E.
    + intros [= <- <-]. split; [done|]. by exists [t].
    + intros H. destruct (IH _ _ _ H) as [Hv [consumed ->]].
      split; [done|]. by exists (t :: consumed).
Qed.





Lemma inputParameters_Ok_inv st cin st' rest :
  inputParameters st cin = Ok (st', rest) ->
  validated st'
  /\ N st' = N st /\ M st' = M st /\ dS st' = dS st /\ dt st' = dt st
  /\ U st' = U st
  /\ exists consumed, cin = consumed ++ rest.
Proof.
  unfold inputParameters. intros H.
  apply bind_Ok_inv in H as ([v1 c1] & H1 & H).
  apply bind_Ok_inv in H as ([v2 c2] & H2 & H).
  apply bind_Ok_inv in H as ([v3 c3] & H3 & H).
  apply bind_Ok_inv in H as ([v4 c4] & H4 & H).
  apply bind_Ok_inv in H as ([v5 c5] & H5 & H).
  apply bind_Ok_inv in H as ([v6 c6] & H6 & H).
  injection H as <- <-.
  apply read_until_accepts in H1 as [V1 [k1 ->]].
  apply read_until_accepts in H2 as [V2 [k2 ->]].
  apply read_until_accepts in H3 as [V3 [k3 ->]].
  apply read_until_accepts in H4 as [V4 [k4 ->]].
  apply read_until_accepts in H5 as [V5 [k5 ->]].
  apply read_until_accepts in H6 as [V6 [k6 ->]].
  split; [by repeat split|]. repeat split.
  exists (k1 ++ k2 ++ k3 ++ k4 ++ k5 ++ k6). by rewrite <- !(assoc_L (++)).
Qed.

(** X1. When [inputParameters] returns, the six parameters it leaves have
    each passed their check, [Smax] is [4.0 * K], the other members are
    untouched, and the input left over is a suffix of the input given. *)
Theorem inputParameters_validates st (cin : list token) st' (rest : list token) :
  inputParameters st cin = Ok (st', rest) ->
  validated st'
  /\ N st' = N st /\ M st' = M st /\ dS st' = dS st /\ dt st' = dt st
  /\ U st' = U st
  /\ exists consumed, cin = consumed ++ rest.
Proof. apply inputParameters_Ok_inv. Qed.

Lemma inputParameters_validates_witness :
  inputParameters (FiniteDifferencePricer main_params 0 0)
    [whole 5; whole 1; real 100; real (-2); real 135; real 0.05; real 0.2;
     whole 1; whole 2]
  = Ok (sample_state sample_params, [whole 2])
  /\ validated (sample_state sample_params).
Proof.
  assert (inputParameters (FiniteDifferencePricer main_params 0 0)
            [whole 5; whole 1; real 100; real (-2); real 135; real 0.05;
             real 0.2; whole 1; whole 2]
          = Ok (sample_state sample_params, [whole 2])) as H
    by (vm_compute; reflexivity).
  split; [exact H|].
  exact (proj1 (inputParameters_validates _ _ _ _ H)).
Defined.

(** X2. What the checks accept: the type check exactly 0 and 1; the range
    checks exactly the numbers of the documented range, and NaN, which
    fails every comparison. *)
Theorem checks_accept_range_or_nan (x : float) :
  (valid_type x = true <-> (x =? 0)%float = true \/ (x =? 1)%float = true)
  /\ (valid_positive x = true <-> (0 <? x)%float = true \/ is_nan x = true)
  /\ (valid_rate x = true <->
        ((0 <=? x)%float = true /\ (x <=? 1)%float = true) \/ is_nan x = true)
  /\ (valid_sigma x = true <->
        ((0 <? x)%float = true /\ (x <=? 1)%float = true) \/ is_nan x = true).
Proof.
  assert (not_nan 0) as H0 by (unfold not_nan; vm_compute; discriminate).
  assert (not_nan 1) as H1 by (unfold not_nan; vm_compute; discriminate).
  unfold valid_type, valid_positive, valid_rate, valid_sigma, fneq, fgt.
  destruct (Prim2SF x) as [s|s| |s m e] eqn:E.
  1,2,4: assert (not_nan x) as Hx by (unfold not_nan; congruence);
    assert (is_nan x = false) as Hn
      by (destruct (is_nan x) eqn:En; [apply is_nan_spec in En; congruence | done]);
    rewrite Hn, (leb_negb_ltb x 0 Hx H0), (leb_negb_ltb 0 x H0 Hx),
      (leb_negb_ltb x 1 Hx H1);
    destruct (x =? 0)%float, (x =? 1)%float, (0 <? x)%float, (x <? 0)%float,
      (1 <? x)%float; simpl; intuition congruence.
  assert (is_nan x = true) as Hn by (by apply is_nan_spec).
  destruct (cmp_nan_l x 0 E) as (A1 & A2 & A3 & A4).
  destruct (cmp_nan_l x 1 E) as (B1 & B2 & B3 & B4).
  rewrite Hn, A1, A2, A3, A4, B2, B3.
  rewrite !FloatAxioms.eqb_spec, E. unfold SFeqb. simpl.
  intuition congruence.
Qed.

(** *** Sizing on validated parameters *)

Lemma configureMode_Ok_range mode st cin st' cin' :
  configureMode mode st cin = Ok (st', cin') ->
  exists N' q,
    choose_N mode st cin = Ok (N', cin')
    /\ truncate (T (params st) / dt (set_steps st N'))%float = Some q
    /\ q + 1 <= INT_MAX
    /\ st' = mkPricer (params st) (Smax st) N' (q + 1)
               (dS (set_steps st N')) (dt (set_steps st N')) (U st).
Proof.
  unfold configureMode. intros H.
  apply bind_Ok_inv in H as ([N' cin1] & HN & H).
  apply bind_Ok_inv in H as (q & Hq & H).
  apply bind_Ok_inv in H as (M' & HM & H).
  unfold int_add in HM. destruct (in_int (q + 1)) eqn:Hin; [|done].
  injection HM as <-. injection H as <- <-.
  unfold double_to_int in Hq.
  destruct (truncate _) as [z|] eqn:Ht; [|done].
  destruct (in_int z); [|done]. injection Hq as ->.
  exists N', q. repeat split; try done.
  unfold in_int in Hin. apply andb_true_iff in Hin as [_ Hin]. by apply Z.leb_le.
Qed.

Lemma validated_not_negative st :
  validated st ->
  not_negative (T (params st)) /\ not_negative (Smax st)
  /\ not_negative (S0 (params st)).
Proof.
  intros (_ & HS0 & HK & _ & _ & HT & ->). repeat split.
  - by apply valid_positive_not_negative.
  - apply mul_not_negative; [vm_compute; reflexivity |].
    by apply valid_positive_not_negative.
  - by apply valid_positive_not_negative.
Qed.

Lemma set_steps_dt_not_negative st (N' : Z) :
  validated st -> not_negative (dt (set_steps st N')).
Proof.
  intros Hv. destruct (validated_not_negative st Hv) as (HT & HSmax & _).
  simpl. apply std_min_not_negative.
  - apply div_not_negative; [apply square_not_negative|].
    apply mul_not_negative; [|done].
    apply mul_not_negative; [apply square_not_negative | done].
  - apply div_not_negative; [done|]. by apply of_int_not_negative.
Qed.

(** A quotient that converts to an integer has a non-zero divisor when the
    dividend is accepted by the positivity check. *)
Lemma defined_quotient_divisor (x y : float) (z : Z) :
  valid_positive x = true -> not_negative y ->
  truncate (x / y)%float = Some z ->
  (0 <? y)%float = true.
Proof.
  unfold valid_positive, not_negative, truncate.
  rewrite FloatAxioms.leb_spec, FloatAxioms.ltb_spec, FloatAxioms.div_spec, Prim2SF_zero.
  unfold SFleb, SFltb, SF64div.
  destruct (Prim2SF x) as [sx|sx| |sx mx ex], (Prim2SF y) as [sy|sy| |sy my ey];
    simpl; try done; intros Hx Hy; try (by destruct sx); by subst.
Qed.

Lemma configureMode_positive_steps_aux mode st cin st' cin' :
  validated st ->
  configureMode mode st cin = Ok (st', cin') ->
  (0 <? dt st')%float = true /\ 1 <= M st' <= INT_MAX /\ validated st'.
Proof.
  intros Hv H.
  apply configureMode_Ok_range in H as (N' & q & HN & Hq & Hmax & ->).
  pose proof (set_steps_dt_not_negative st N' Hv) as Hdt.
  destruct (validated_not_negative st Hv) as (HT & _ & _).
  pose proof Hv as (_ & _ & _ & _ & _ & HvT & _).
  simpl. split; [|split].
  - by apply (defined_quotient_divisor (T (params st)) _ q).
  - split; [|done].
    assert (0 <= q); [|lia].
    apply (truncate_not_negative _ _ Hq). by apply div_not_negative.
  - exact Hv.
Qed.



(** X6. An unknown mode is the fast mode: every mode other than 1 and 3
    sizes the grid exactly as mode 2 does, with 100 spatial steps. Mode 3
    takes the step count from the next token as it is, negative or zero
    included, and keeps the count the object already has when the input has
    ended. *)
Theorem configureMode_mode_switch (mode : Z) st (cin : list token) :
  (mode <> 1 -> mode <> 3 -> configureMode mode st cin = configureMode 2 st cin)
  /\ (forall st' cin', configureMode 2 st cin = Ok (st', cin') -> N st' = 100)
  /\ (forall st' cin', configureMode 1 st cin = Ok (st', cin') -> N st' = 2000)
  /\ (forall tok rest z st' cin',
        cin = tok :: rest -> as_int tok = Some z ->
        configureMode 3 st cin = Ok (st', cin') -> N st' = z /\ cin' = rest)
  /\ (forall st' cin',
        cin = [] -> configureMode 3 st cin = Ok (st', cin') -> N st' = N st).
Proof.
  split; [|split; [|split; [|split]]].
  - intros H1 H3. unfold configureMode, choose_N.
    destruct mode as [|[[[]|[]|]|[[]|[]|]|]|]; try done.
  - intros st' cin' H.
    apply configureMode_Ok_range in H as (N' & q & HN & _ & _ & ->).
    simpl in *. congruence.
  - intros st' cin' H.
    apply configureMode_Ok_range in H as (N' & q & HN & _ & _ & ->).
    simpl in *. congruence.
  - intros tok rest z st' cin' -> Htok H.
    apply configureMode_Ok_range in H as (N' & q & HN & _ & _ & ->).
    simpl in *. rewrite Htok in HN. by injection HN as <- <-.
  - intros st' cin' -> H.
    apply configureMode_Ok_range in H as (N' & q & HN & _ & _ & ->).
    simpl in *. congruence.
Qed.

(** *** The solver at the edges of its domain *)

(** With at least one time step, the grid the solver returns is the result
    of a time step with loop counter 1 on a grid of [N + 1] entries. *)
Lemma solver_last_step (exp : float -> float) st :
  0 <= N st < INT_MAX -> 1 <= M st ->
  exists U_prev X_prev U_fin,
    Z.of_nat (length U_prev) = N st + 1
    /\ time_step exp st 1 (U_prev, X_prev) = Ok (U_fin, U_prev)
    /\ computeCallOptionPrice exp st =
         Ok (mkPricer (params st) (Smax st) (N st) (M st) (dS st) (dt st) U_fin).
Proof.
  intros HN HM.
  destruct (initialize_spec st ltac:(lia)) as (U0 & X0 & Hinit & HlenU & HlenX & _).
  set (n := Z.to_nat (M st - 1)).
  destruct (time_loop_sized exp st n (M st) (U0, X0) ltac:(lia))
    as ([U1 X1] & Hloop & Hs1 & _).
  { by split. }
  simpl in Hs1.
  destruct (time_step_spec exp st 1 U1 X1 ltac:(lia) Hs1) as (U2 & Hstep & _).
  exists U1, X1, U2. split; [done|]. split; [done|].
  unfold computeCallOptionPrice, time_loop. rewrite Hinit. simpl.
  rewrite for_loop_down_counted by lia.
  replace (Z.to_nat (M st)) with (n + 1)%nat by lia.
  rewrite count_down_app, Hloop. simpl.
  replace (M st - Z.of_nat n) with 1 by lia. by rewrite Hstep.
Qed.

(** X7. For [0 < N < INT_MAX] and at least one time step, the solver
    returns the state it was given with a grid of [N + 1] entries that holds
    0 at index 0 and [Smax - K * exp(-r * (T - 0 * dt))] at index [N]: the
    far boundary of the last iteration, whose loop counter is 1. *)
Theorem solver_final_boundaries (exp : float -> float) st :
  0 < N st < INT_MAX ->
  1 <= M st ->
  exists U_fin,
    computeCallOptionPrice exp st =
      Ok (mkPricer (params st) (Smax st) (N st) (M st) (dS st) (dt st) U_fin)
    /\ Z.of_nat (length U_fin) = N st + 1
    /\ vec_get U_fin 0 = Ok 0%float
    /\ vec_get U_fin (N st) =
         Ok (Smax st
             - K (params st) * exp (- r (params st) * (T (params st) - 0 * dt st)))%float.
Proof.
  intros HN HM.
  destruct (solver_last_step exp st ltac:(lia) HM)
    as (U1 & X1 & U2 & Hlen & Hstep & Hsolve).
  destruct (time_step_spec exp st 1 U1 X1 ltac:(lia) Hlen)
    as (U2' & Hstep' & Hlen2 & Hfar & Hzero & _).
  rewrite Hstep in Hstep'. injection Hstep' as <-.
  exists U2. split; [done|]. split; [lia|]. split.
  - apply vec_get_lookup; [lia|]. apply Hzero. lia.
  - apply vec_get_lookup; [lia|]. by rewrite Hfar.
Qed.

Lemma solver_final_boundaries_witness :
  exists U_fin,
    computeCallOptionPrice exp_sample small_sized =
      Ok (mkPricer sample_params 540 4 101 135 0.01 U_fin)
    /\ Z.of_nat (length U_fin) = 5
    /\ vec_get U_fin 0 = Ok 0%float
    /\ vec_get U_fin 4 =
         Ok (540 - 135 * exp_sample (- 0.05 * (1 - 0 * 0.01)))%float.
Proof.
  apply (solver_final_boundaries exp_sample small_sized);
    [unfold INT_MAX; simpl; lia | simpl; lia].
Defined.

(** X8. With zero spatial steps the grid has a single entry, which both
    boundary assignments write: after at least one time step it holds the
    far-boundary value, not 0. *)
Theorem solver_single_point_grid (exp : float -> float) st :
  N st = 0 ->
  1 <= M st ->
  computeCallOptionPrice exp st =
    Ok (mkPricer (params st) (Smax st) 0 (M st) (dS st) (dt st)
          [(Smax st
            - K (params st) * exp (- r (params st) * (T (params st) - 0 * dt st)))%float]).
Proof.
  intros HN HM.
  destruct (solver_last_step exp st ltac:(unfold INT_MAX; lia) HM)
    as (U1 & X1 & U2 & Hlen & Hstep & Hsolve).
  destruct (time_step_spec exp st 1 U1 X1 ltac:(lia) Hlen)
    as (U2' & Hstep' & Hlen2 & Hfar & _).
  rewrite Hstep in Hstep'. injection Hstep' as <-.
  rewrite Hsolve, HN. rewrite HN in Hfar, Hlen.
  destruct U2 as [|x [|y U2]]; simpl in *; try lia.
  by injection Hfar as ->.
Qed.

Lemma solver_single_point_grid_witness :
  computeCallOptionPrice exp_sample (mkPricer sample_params 540 0 101 135 0.01 [])
  = Ok (mkPricer sample_params 540 0 101 135 0.01
          [(540 - 135 * exp_sample (- 0.05 * (1 - 0 * 0.01)))%float]).
Proof.
  apply (solver_single_point_grid exp_sample
           (mkPricer sample_params 540 0 101 135 0.01 []));
    [reflexivity | simpl; lia].
Defined.

Lemma solver_faults_on_empty_grid (exp : float -> float) st :
  N st = -1 -> 1 <= M st ->
  computeCallOptionPrice exp st = Fault OutOfBounds.
Proof.
  intros HN HM. unfold computeCallOptionPrice, initialize, time_loop.
  rewrite HN. simpl.
  replace (Z.to_nat (M st)) with (Datatypes.S (Z.to_nat (M st - 1))) by lia.
  simpl. rewrite (proj2 (Z.ltb_lt 0 (M st))) by lia.
  unfold time_step. rewrite HN. simpl. done.
Qed.



Lemma call_payoff_not_below_zero (S K' : float) : (call_payoff S K' <? 0)%float = false.
Proof.
  unfold call_payoff, std_max.
  destruct (S - K' <? 0)%float eqn:E; [apply ltb_irrefl | exact E].
Qed.

(** X10. With no time step to run ([M <= 0]) the solver returns the
    initial grid: the payoff at every index, none of it below zero. *)
Theorem solver_without_steps_returns_payoff (exp : float -> float) st :
  0 <= N st < INT_MAX ->
  M st <= 0 ->
  exists U_fin,
    computeCallOptionPrice exp st =
      Ok (mkPricer (params st) (Smax st) (N st) (M st) (dS st) (dt st) U_fin)
    /\ Z.of_nat (length U_fin) = N st + 1
    /\ forall j, 0 <= j <= N st ->
         vec_get U_fin j = Ok (call_payoff (of_int j * dS st)%float (K (params st)))
         /\ (call_payoff (of_int j * dS st)%float (K (params st)) <? 0)%float = false.
Proof.
  intros HN HM.
  destruct (initialize_spec st ltac:(lia)) as (U0 & X0 & Hinit & HlenU & _ & Hget).
  exists U0. split; [|split; [done|]].
  - unfold computeCallOptionPrice, time_loop. rewrite Hinit. simpl.
    rewrite for_loop_down_counted by lia.
    by replace (Z.to_nat (M st)) with 0%nat by lia.
  - intros j Hj. split; [|apply call_payoff_not_below_zero].
    apply vec_get_lookup; [lia|]. by apply Hget.
Qed.

Lemma solver_without_steps_returns_payoff_witness :
  exists U_fin,
    computeCallOptionPrice exp_sample (mkPricer sample_params 540 4 0 135 0.01 []) =
      Ok (mkPricer sample_params 540 4 0 135 0.01 U_fin)
    /\ Z.of_nat (length U_fin) = 5
    /\ forall j, 0 <= j <= 4 ->
         vec_get U_fin j = Ok (call_payoff (of_int j * 135)%float 135)
         /\ (call_payoff (of_int j * 135)%float 135 <? 0)%float = false.
Proof.
  apply (solver_without_steps_returns_payoff exp_sample
           (mkPricer sample_params 540 4 0 135 0.01 []));
    [unfold INT_MAX; simpl; lia | simpl; lia].
Defined.

(** X11. The value a time step stores at an interior index depends on the
    previous layer only through its three entries around that index, and the
    two boundary values do not depend on the previous layer at all. *)
Theorem time_step_is_local (exp : float -> float) st (m : Z)
    (U1 X1 U2 X2 : list float) (j : Z) :
  Z.of_nat (length U1) = N st + 1 ->
  Z.of_nat (length U2) = N st + 1 ->
  1 <= j <= N st - 1 ->
  U1 !! Z.to_nat (j - 1) = U2 !! Z.to_nat (j - 1) ->
  U1 !! Z.to_nat j = U2 !! Z.to_nat j ->
  U1 !! Z.to_nat (j + 1) = U2 !! Z.to_nat (j + 1) ->
  exists V1 V2,
    time_step exp st m (U1, X1) = Ok (V1, U1)
    /\ time_step exp st m (U2, X2) = Ok (V2, U2)
    /\ vec_get V1 j = vec_get V2 j
    /\ vec_get V1 0 = vec_get V2 0
    /\ vec_get V1 (N st) = vec_get V2 (N st).
Proof.
  intros Hl1 Hl2 Hj Ha Hb Hc.
  destruct (time_step_spec exp st m U1 X1 ltac:(lia) Hl1)
    as (V1 & Hs1 & _ & Hfar1 & Hz1 & Hg1).
  destruct (time_step_spec exp st m U2 X2 ltac:(lia) Hl2)
    as (V2 & Hs2 & _ & Hfar2 & Hz2 & Hg2).
  exists V1, V2. split; [done|]. split; [done|].
  assert (forall i, U1 !! i = U2 !! i -> U1 !!! i = U2 !!! i) as Htot.
  { intros i Hi. rewrite !list_lookup_total_alt. by rewrite Hi. }
  split; [|split].
  - rewrite (vec_get_lookup V1 j _ ltac:(lia) (Hg1 j Hj)).
    rewrite (vec_get_lookup V2 j _ ltac:(lia) (Hg2 j Hj)).
    by rewrite (Htot _ Ha), (Htot _ Hb), (Htot _ Hc).
  - rewrite (vec_get_lookup V1 0 _ ltac:(lia) (Hz1 ltac:(lia))).
    by rewrite (vec_get_lookup V2 0 _ ltac:(lia) (Hz2 ltac:(lia))).
  - rewrite (vec_get_lookup V1 (N st) _ ltac:(lia) Hfar1).
    by rewrite (vec_get_lookup V2 (N st) _ ltac:(lia) Hfar2).
Qed.

Lemma time_step_is_local_witness :
  exists V1 V2,
    time_step exp_sample small_sized 101 ([0; 0; 135; 270; 405]%float, [])
      = Ok (V1, [0; 0; 135; 270; 405]%float)
    /\ time_step exp_sample small_sized 101 ([0; 0; 135; 270; 9]%float, [])
      = Ok (V2, [0; 0; 135; 270; 9]%float)
    /\ vec_get V1 2 = vec_get V2 2
    /\ vec_get V1 0 = vec_get V2 0
    /\ vec_get V1 4 = vec_get V2 4.
Proof.
  apply (time_step_is_local exp_sample small_sized 101
           [0; 0; 135; 270; 405]%float [] [0; 0; 135; 270; 9]%float [] 2);
    try reflexivity. simpl. lia.
Defined.

(** *** Evaluation at the edges of the grid *)

Lemma Delta_call_defined st (j0 : Z) :
  Z.of_nat (length (U st)) = N st + 1 -> exists d, Delta_call st j0 = Ok d.
Proof.
  intros Hlen. unfold Delta_call.
  destruct (0 <? j0) eqn:E1, (j0 <? N st) eqn:E2; simpl; eauto.
  apply Z.ltb_lt in E1, E2. rewrite !vec_get_in_range by lia. simpl. eauto.
Qed.

Lemma Gamma_defined st (j0 : Z) :
  Z.of_nat (length (U st)) = N st + 1 -> exists g, Gamma st j0 = Ok g.
Proof.
  intros Hlen. unfold Gamma.
  destruct (0 <? j0) eqn:E1, (j0 <? N st) eqn:E2; simpl; eauto.
  apply Z.ltb_lt in E1, E2. rewrite !vec_get_in_range by lia. simpl. eauto.
Qed.

Lemma price_call_defined_iff st (j0 : Z) :
  Z.of_nat (length (U st)) = N st + 1 -> 0 <= N st ->
  (0 <= j0 <= N st -> exists v, price_call st j0 = Ok v)
  /\ (~ 0 <= j0 <= N st -> price_call st j0 = Fault OutOfBounds).
Proof.
  intros Hlen HN. unfold price_call. split.
  - intros Hj. rewrite (proj2 (Z.leb_le 0 j0)) by lia. simpl.
    destruct (j0 <? N st) eqn:E2.
    + apply Z.ltb_lt in E2. rewrite !vec_get_in_range by lia. simpl. eauto.
    + rewrite vec_get_in_range by lia. eauto.
  - intros Hj. destruct (0 <=? j0) eqn:E1.
    + apply Z.leb_le in E1. rewrite (proj2 (Z.ltb_ge j0 (N st))) by lia. simpl.
      apply vec_get_beyond. lia.
    + simpl. unfold vec_get. by rewrite E1.
Qed.

Lemma call_results_defined_iff st (j0 : Z) :
  Z.of_nat (length (U st)) = N st + 1 -> 0 <= N st ->
  index_j0 st = Ok j0 ->
  (0 <= j0 <= N st -> exists res, call_results st = Ok res)
  /\ (~ 0 <= j0 <= N st -> call_results st = Fault OutOfBounds).
Proof.
  intros Hlen HN Hj. unfold call_results. rewrite Hj. simpl.
  destruct (price_call_defined_iff st j0 Hlen HN) as [Hin Hout]. split.
  - intros Hr. destruct (Hin Hr) as [v ->]. simpl.
    destruct (Delta_call_defined st j0 Hlen) as [d ->]. simpl.
    destruct (Gamma_defined st j0 Hlen) as [g ->]. simpl. eauto.
  - intros Hr. by rewrite (Hout Hr).
Qed.

Lemma displayResults_defined_aux (exp : float -> float) st (j0 : Z) :
  Z.of_nat (length (U st)) = N st + 1 -> 0 <= N st ->
  index_j0 st = Ok j0 ->
  (0 <= j0 <= N st -> exists res, displayResults exp st = Ok res)
  /\ (~ 0 <= j0 <= N st -> displayResults exp st = Fault OutOfBounds).
Proof.
  intros Hlen HN Hj. unfold displayResults.
  destruct (call_results_defined_iff st j0 Hlen HN Hj) as [Hin Hout]. split.
  - intros Hr. destruct (Hin Hr) as [res ->]. simpl. eauto.
  - intros Hr. by rewrite (Hout Hr).
Qed.

(** X12. On a grid of [N + 1] entries, [displayResults] has a result
    exactly when the index [j0] of the spot lies in [0 .. N]; for any other
    index it reads outside the grid. *)
Theorem displayResults_defined_iff (exp : float -> float) st (j0 : Z) :
  Z.of_nat (length (U st)) = N st + 1 ->
  0 <= N st ->
  index_j0 st = Ok j0 ->
  (0 <= j0 <= N st -> exists res, displayResults exp st = Ok res)
  /\ (~ 0 <= j0 <= N st -> displayResults exp st = Fault OutOfBounds).
Proof.
  apply displayResults_defined_aux.
Qed.

Lemma displayResults_defined_iff_witness :
  let st := mkPricer sample_params 540 4 101 135 0.01 [0; 6; 141; 276; 411]%float in
  index_j0 st = Ok 0
  /\ exists res, displayResults exp_sample st = Ok res.
Proof.
  set (st0 := mkPricer sample_params 540 4 101 135 0.01 [0; 6; 141; 276; 411]%float).
  assert (index_j0 st0 = Ok 0) as Hj by (vm_compute; reflexivity).
  split; [exact Hj|].
  apply (proj1 (displayResults_defined_iff exp_sample st0 0 eq_refl
                  ltac:(simpl; lia) Hj)).
  simpl. lia.
Defined.

Lemma index_j0_not_negative st (j0 : Z) :
  not_negative (S0 (params st)) -> not_negative (dS st) ->
  index_j0 st = Ok j0 -> 0 <= j0.
Proof.
  intros HS0 HdS. unfold index_j0, double_to_int, S0_index.
  destruct (truncate _) as [z|] eqn:Ht; [|done].
  destruct (in_int z); [|done]. intros [= <-].
  apply (truncate_not_negative _ _ Ht).
  apply floor_not_negative. by apply div_not_negative.
Qed.

(** X13. After a sizing step on validated parameters with a non-negative
    number of spatial steps, the index [j0] of the spot is never negative:
    the test [j0 >= 0] of the price always holds, and the spot can leave the
    grid only above. *)
Theorem spot_index_is_not_negative (mode : Z) st (cin : list token)
    st' (cin' : list token) (j0 : Z) :
  validated st ->
  configureMode mode st cin = Ok (st', cin') ->
  0 <= N st' ->
  index_j0 st' = Ok j0 ->
  0 <= j0.
Proof.
  intros Hv H HN Hj.
  destruct (validated_not_negative st Hv) as (_ & HSmax & HS0).
  apply configureMode_Ok_range in H as (N' & q & _ & _ & _ & ->).
  eapply index_j0_not_negative; [| | exact Hj]; simpl; [done|].
  apply div_not_negative; [done | by apply of_int_not_negative].
Qed.

Lemma spot_index_is_not_negative_witness :
  configureMode 2 (sample_state sample_params) [] = Ok (sample_sized, [])
  /\ index_j0 sample_sized = Ok 18
  /\ 0 <= 18.
Proof.
  assert (validated (sample_state sample_params)) as Hv
    by (vm_compute; repeat split).
  assert (configureMode 2 (sample_state sample_params) [] = Ok (sample_sized, []))
    as H by (vm_compute; reflexivity).
  assert (index_j0 sample_sized = Ok 18) as Hj by (vm_compute; reflexivity).
  split; [exact H|]. split; [exact Hj|].
  exact (spot_index_is_not_negative _ _ _ _ _ _ Hv H ltac:(simpl; lia) Hj).
Defined.

(** *** The run as a whole *)

(** X14. A run that prints a result has priced validated parameters on
    a grid that passed the stability test, with a positive time step, at
    least one time step, between 0 and [INT_MAX - 1] spatial steps, and a
    spot whose index lies inside the grid; what it prints is the step line
    of the sizing and what [displayResults] reads from the grid the solver
    left. *)
Theorem run_result_inv (exp : float -> float) st (cin : list token)
    (d : float) (m : Z) (res : results) :
  run exp st cin = Ok (Priced d m res) ->
  exists st2 U_fin j0,
    d = dt st2 /\ m = M st2
    /\ validated st2
    /\ checkStability st2 = true
    /\ (0 <? dt st2)%float = true
    /\ 1 <= M st2 <= INT_MAX
    /\ 0 <= N st2 < INT_MAX
    /\ computeCallOptionPrice exp st2 =
         Ok (mkPricer (params st2) (Smax st2) (N st2) (M st2) (dS st2) (dt st2) U_fin)
    /\ Z.of_nat (length U_fin) = N st2 + 1
    /\ index_j0 st2 = Ok j0
    /\ 0 <= j0 <= N st2
    /\ displayResults exp
         (mkPricer (params st2) (Smax st2) (N st2) (M st2) (dS st2) (dt st2) U_fin)
       = Ok res.
Proof.
  unfold run. intros H.
  apply bind_Ok_inv in H as ([st1 cin1] & Hin & H).
  apply bind_Ok_inv in H as ([mode cin2] & Hmode & H).
  apply bind_Ok_inv in H as ([st2 cin3] & Hconf & H).
  destruct (checkStability st2) eqn:Hstable; simpl in H; [|done].
  apply bind_Ok_inv in H as (st3 & Hsolve & H).
  apply bind_Ok_inv in H as (res' & Hdisp & H).
  injection H as <- <- <-.
  apply inputParameters_Ok_inv in Hin as (Hv1 & _).
  destruct (configureMode_positive_steps_aux _ _ _ _ _ Hv1 Hconf) as (Hdt & HM & Hv2).
  assert (0 <= N st2 < INT_MAX) as HN.
  { assert (-1 <= N st2 < INT_MAX) as HN'.
    { unfold computeCallOptionPrice in Hsolve.
      apply bind_Ok_inv in Hsolve as (g & Hg & _).
      by apply initialize_Ok_inv in Hg. }
    destruct (decide (N st2 = -1)) as [E|E]; [|lia].
    rewrite (solver_faults_on_empty_grid exp st2 E ltac:(lia)) in Hsolve. done. }
  destruct (computeCallOptionPrice_sized exp st2 HN) as (gM & Hsolve' & Hlen & _).
  rewrite Hsolve in Hsolve'. injection Hsolve' as ->.
  set (st3 := mkPricer (params st2) (Smax st2) (N st2) (M st2) (dS st2) (dt st2) gM.1)
    in *.
  assert (exists j0, index_j0 st3 = Ok j0) as [j0 Hj].
  { unfold displayResults, call_results in Hdisp.
    apply bind_Ok_inv in Hdisp as (c & Hc & _).
    apply bind_Ok_inv in Hc as (j0 & Hj & _). by exists j0. }
  assert (0 <= j0 <= N st2) as Hr.
  { destruct (decide (0 <= j0 <= N st2)) as [Hr|Hr]; [done|].
    rewrite (proj2 (displayResults_defined_aux exp st3 j0 Hlen (proj1 HN) Hj) Hr)
      in Hdisp. done. }
  subst st3. exists st2, gM.1, j0.
  split; [done|]. split; [done|]. split; [done|]. split; [done|].
  split; [done|]. split; [done|]. split; [done|]. split; [done|].
  split; [done|]. split; [exact Hj|]. split; [done|]. exact Hdisp.
Qed.

Lemma run_result_inv_witness :
  run exp_sample (FiniteDifferencePricer main_params 0 0)
    [whole 1; real 100; real 135; real 0.05; real 0.2; whole 1; whole 2]
  = Ok (Priced 0.0025 401
          (mkResults 1.1804308658426688 0.099621857280974987
                     0.0087974785917926054))
  /\ exists st2 j0,
       validated st2 /\ M st2 = 401 /\ index_j0 st2 = Ok j0 /\ 0 <= j0 <= N st2.
Proof.
  assert (run exp_sample (FiniteDifferencePricer main_params 0 0)
            [whole 1; real 100; real 135; real 0.05; real 0.2; whole 1; whole 2]
          = Ok (Priced 0.0025 401
                  (mkResults 1.1804308658426688 0.099621857280974987
                             0.0087974785917926054))) as H
    by (vm_compute; reflexivity).
  split; [exact H|].
  destruct (run_result_inv exp_sample (FiniteDifferencePricer main_params 0 0)
              [whole 1; real 100; real 135; real 0.05; real 0.2; whole 1; whole 2]
              _ _ _ H)
    as (st2 & U_fin & j0 & _ & Hm & Hv & _ & _ & _ & _ & _ & _ & Hj & Hr & _).
  exists st2, j0. split; [exact Hv|]. split; [by symmetry|]. by split.
Defined.
